(** * TMCC accessory -> WLED bridge: a shallow embedding of [tmcc_wled.py]

    The development follows the layout of the Python module: the frame
    parser, the HTTP client, the daylight cycle and the controller.  Python
    integers are [Z] (unbounded, with two's-complement bit operations, as
    [Z.land], [Z.lor], [Z.shiftl] and [Z.shiftr] are), Python floats are the
    kernel's binary64 floats, strings are [string] (code points below 256),
    and code that logs, talks to the device or raises runs in a small
    state-and-exception monad over an explicit world. *)

From Stdlib Require Import ZArith List String Ascii Bool Lia DecimalString.
From Stdlib Require Import Sorting.Sorted.
From Stdlib Require Import PrimFloat FloatOps SpecFloat FloatAxioms.
Import ListNotations.
Open Scope Z_scope.
Set Warnings "-register-all".


(** ** Python values, exceptions and primitives *)

Module Py.

(** The exception classes this module can meet; all derive from
    [Exception]. *)
Inductive exn : Type :=
| ValueError | IndexError | KeyError | OverflowError | ZeroDivisionError
| UnboundLocalError | AttributeError | OSError | TimeoutError | HTTPException.

(** The outcome of a call: a value, or a raised exception. *)
Inductive result (A : Type) : Type :=
| Ok (a : A)
| Raise (e : exn).
Arguments Ok {A} a.
Arguments Raise {A} e.

Definition and_then {A B} (r : result A) (k : A -> result B) : result B :=
  match r with
  | Ok a => k a
  | Raise e => Raise e
  end.

(** *** Lists and strings *)

(** [l[i]], negative indices counted from the end. *)
Definition getitem {A} (l : list A) (i : Z) : result A :=
  let n := Z.of_nat (List.length l) in
  let j := if i <? 0 then i + n else i in
  if (j <? 0) || (n <=? j) then Raise IndexError
  else match nth_error l (Z.to_nat j) with
       | Some a => Ok a
       | None => Raise IndexError
       end.

(** [s.startswith(p)]. *)
Definition startswith (s p : string) : bool := String.prefix p s.

(** [s.split(sep, 1)] for a one-character separator: the whole string when
    [sep] does not occur, else the parts before and after its first
    occurrence. *)
Fixpoint split1 (sep : ascii) (s : string) : list string :=
  match s with
  | EmptyString => [EmptyString]
  | String c r =>
      if Ascii.eqb c sep then [EmptyString; r]
      else match split1 sep r with
           | h :: t => String c h :: t
           | [] => [String c EmptyString]
           end
  end.

Fixpoint char_in (c : ascii) (chars : string) : bool :=
  match chars with
  | EmptyString => false
  | String d r => Ascii.eqb c d || char_in c r
  end.

(** [s.lstrip(chars)]: every leading character that is in [chars] goes. *)
Fixpoint lstrip (chars s : string) : string :=
  match s with
  | EmptyString => EmptyString
  | String c r => if char_in c chars then lstrip chars r else s
  end.

(** [s[i:j]] for [0 <= i <= j]. *)
Definition slice (s : string) (i j : nat) : string := substring i (j - i) s.

Definition len (s : string) : Z := Z.of_nat (String.length s).

(** [str(z)]. *)
Definition str_of_int (z : Z) : string := NilZero.string_of_int (Z.to_int z).

(** *** [int(s, base)]

    The scan that CPython's [PyLong_FromString] makes: white space, a sign,
    for base 16 a [0x] prefix (one underscore may follow it), then digits
    with single underscores between them, then white space up to the end.
    The white space of a string of code points below 256 is tab to carriage
    return, space, U+0085 and U+00A0.  The interpreter's limit on the number
    of decimal digits is not part of the model. *)
Definition is_space (c : ascii) : bool :=
  let n := nat_of_ascii c in
  ((9 <=? n) && (n <=? 13) || (n =? 32) || (n =? 133) || (n =? 160))%nat.

Definition digit_value (c : ascii) : option Z :=
  let n := Z.of_nat (nat_of_ascii c) in
  if (48 <=? n) && (n <=? 57) then Some (n - 48)
  else if (97 <=? n) && (n <=? 122) then Some (n - 87)
  else if (65 <=? n) && (n <=? 90) then Some (n - 55)
  else None.

Fixpoint skip_spaces (s : string) : string :=
  match s with
  | EmptyString => EmptyString
  | String c r => if is_space c then skip_spaces r else s
  end.

(** The digit loop: [prev_us] says the previous character was an
    underscore, [acc] is the value so far and [n] the number of digits
    read.  It stops at the first character that is neither a digit of the
    base nor an underscore and returns the rest; two underscores in a row,
    or one at the end of the digits, are an error. *)
Fixpoint scan_digits (base : Z) (s : string) (prev_us : bool) (acc : Z) (n : nat)
  : option (Z * nat * string) :=
  let stop := if prev_us then None else Some (acc, n, s) in
  match s with
  | EmptyString => stop
  | String c r =>
      if Ascii.eqb c "_" then
        if prev_us then None else scan_digits base r true acc n
      else
        match digit_value c with
        | Some d =>
            if d <? base then scan_digits base r false (acc * base + d) (S n)
            else stop
        | None => stop
        end
  end.

Definition skip_sign (s : string) : bool * string :=
  match s with
  | String "+" r => (false, r)
  | String "-" r => (true, r)
  | _ => (false, s)
  end.

Definition skip_prefix (base : Z) (s : string) : string :=
  match s with
  | String "0" (String x r) =>
      if (base =? 16) && (Ascii.eqb x "x" || Ascii.eqb x "X") then
        match r with
        | String "_" r' => r'
        | _ => r
        end
      else s
  | _ => s
  end.

Definition parse_int (base : Z) (s : string) : option Z :=
  let (neg, s1) := skip_sign (skip_spaces s) in
  let s2 := skip_prefix base s1 in
  match s2 with
  | String "_" _ => None
  | _ =>
      match scan_digits base s2 false 0 0 with
      | Some (v, n, rest) =>
          if (n =? 0)%nat then None
          else match skip_spaces rest with
               | EmptyString => Some (if neg then - v else v)
               | _ => None
               end
      | None => None
      end
  end.

(** [int(s, base)], [ValueError] on a string that is not a numeral. *)
Definition int_of_str (s : string) (base : Z) : result Z :=
  match parse_int base s with
  | Some v => Ok v
  | None => Raise ValueError
  end.

(** *** Floats

    [float] is IEEE binary64 with round-to-nearest-even, as Python's. *)

(** [float(z)]: the nearest double; [OverflowError] beyond the range. *)
Definition float_of_int (z : Z) : result float :=
  let f := SF2Prim (binary_normalize prec emax z 0 false) in
  if PrimFloat.is_infinity f then Raise OverflowError else Ok f.

(** [int(x)]: truncation toward zero. *)
Definition int_of_float (x : float) : result Z :=
  match Prim2SF x with
  | S754_zero _ => Ok 0
  | S754_finite s m e =>
      let a := if 0 <=? e then Z.shiftl (Z.pos m) e else Z.shiftr (Z.pos m) (- e) in
      Ok (if s then - a else a)
  | S754_infinity _ => Raise OverflowError
  | S754_nan => Raise ValueError
  end.

(** Comparing an integer with a float is exact in Python (the integer is
    not rounded to a float first); a NaN compares to nothing. *)
Definition int_cmp_float (h : Z) (x : float) : option comparison :=
  match Prim2SF x with
  | S754_nan => None
  | S754_infinity s => Some (if s then Gt else Lt)
  | S754_zero _ => Some (h ?= 0)
  | S754_finite s m e =>
      let n := if s then Z.neg m else Z.pos m in
      Some (if 0 <=? e then h ?= n * 2 ^ e else h * 2 ^ (- e) ?= n)
  end.

(** [h <= x] and [h >= x] for an integer [h] and a float [x]. *)
Definition int_le_float (h : Z) (x : float) : bool :=
  match int_cmp_float h x with
  | Some Lt | Some Eq => true
  | _ => false
  end.

Definition int_ge_float (h : Z) (x : float) : bool :=
  match int_cmp_float h x with
  | Some Gt | Some Eq => true
  | _ => false
  end.

(** Mixed arithmetic converts the integer operand first. *)
Definition float_sub_int (x : float) (z : Z) : result float :=
  and_then (float_of_int z) (fun fz => Ok (x - fz)%float).

Definition float_div_int (x : float) (z : Z) : result float :=
  and_then (float_of_int z) (fun fz =>
    if PrimFloat.eqb fz 0%float then Raise ZeroDivisionError else Ok (x / fz)%float).

Definition int_mul_float (z : Z) (x : float) : result float :=
  and_then (float_of_int z) (fun fz => Ok (fz * x)%float).

Definition int_add_float (z : Z) (x : float) : result float :=
  and_then (float_of_int z) (fun fz => Ok (fz + x)%float).

(** *** [sorted] on integers *)

Fixpoint insert_sorted (x : Z) (l : list Z) : list Z :=
  match l with
  | [] => [x]
  | y :: r => if x <=? y then x :: l else y :: insert_sorted x r
  end.

Definition sorted (l : list Z) : list Z := fold_right insert_sorted [] l.

(** *** Dictionaries with integer keys, in insertion order *)

Fixpoint dict_find {V} (d : list (Z * V)) (k : Z) : option V :=
  match d with
  | [] => None
  | (k', v) :: r => if k' =? k then Some v else dict_find r k
  end.

(** [d[k]]. *)
Definition dict_getitem {V} (d : list (Z * V)) (k : Z) : result V :=
  match dict_find d k with
  | Some v => Ok v
  | None => Raise KeyError
  end.

Definition dict_keys {V} (d : list (Z * V)) : list Z := map fst d.

(** [x < h] and [x >= h] for a float [x] and an integer [h], exact as
    above. *)
Definition float_lt_int (x : float) (h : Z) : bool :=
  match int_cmp_float h x with
  | Some Gt => true
  | _ => false
  end.

Definition float_ge_int (x : float) (h : Z) : bool :=
  match int_cmp_float h x with
  | Some Lt | Some Eq => true
  | _ => false
  end.

End Py.

(** ** TMCC accessory parsing *)

Module Frame.

(** The dictionary returned by the parser, one field per key. *)
Record Parsed : Type := mkParsed
  { address : Z; cmd_field : Z; data_field : Z; cmd_type : Z }.

(** [cmd_type] as the parser settles it: the caller's value, or bits 7-6 of
    the second byte when the caller passes [None]. *)
Definition frame_type (p1 : Z) (override : option Z) : Z :=
  match override with
  | None => Z.land (Z.shiftr p1 6) 0x03
  | Some c => c
  end.

Definition accepted_type (c : Z) : bool := (c =? 0x02) || (c =? 0x03).

(** [parse_tmcc_switch_or_accessory(packet, cmd_type)]; [None] is Python's
    [None].  The length test comes first, so [packet[0]] is only read from a
    list of three. *)
Definition parse_tmcc_switch_or_accessory
  (packet : list Z) (override : option Z) : option Parsed :=
  match packet with
  | [p0; p1; p2] =>
      if negb (p0 =? 0xFE) then None
      else
        let c := frame_type p1 override in
        if negb (accepted_type c) then None
        else
          Some {| address := Z.lor (Z.shiftl (Z.land p1 0x3F) 1)
                                   (Z.shiftr (Z.land p2 0x80) 7);
                  cmd_field := Z.shiftr (Z.land p2 0x60) 5;
                  data_field := Z.land p2 0x1F;
                  cmd_type := c |}
  | _ => None
  end.

End Frame.

(** ** Effects: the world, and the monad of code that runs in it *)

Module Eff.
Import Py.

Inductive level : Type := DEBUG | INFO | WARNING | ERROR.

(** An argument of a log record. *)
Inductive arg : Type :=
| AStr (s : string)
| AInt (z : Z)
| AExn (e : exn).

(** The JSON values the module sends. *)
Inductive json : Type :=
| JBool (b : bool)
| JInt (z : Z)
| JList (l : list json)
| JDict (kv : list (string * json)).

(** What the calling thread does to the outside, in order: log records,
    entries into [post_state], HTTP requests put on the wire, and the
    start and join of the daylight thread. *)
Inductive event : Type :=
| Log (lvl : level) (fmt : string) (args : list arg)
| PostState (payload : json)
| HttpRequest (host : string) (port : Z) (method path body : string)
    (headers : list (string * string))
| ThreadStart (tid : nat)
| ThreadJoin (tid : nat) (timeout : Z).

(** How one exchange with the device goes: where it fails, or the status
    line of the response that was read to its end. *)
Inductive transport : Type :=
| InitFails (e : exn)
| ConnectFails (e : exn)
| SendFails (e : exn)
| ResponseFails (e : exn)
| ReadFails (status : Z) (reason : string) (e : exn)
| Responds (status : Z) (reason : string).

Record behaviour : Type := mkBehaviour
  { outcome : transport; close_raises : option exn }.

(** The world: the trace so far, the number of sockets held open, the
    number of exchanges started and of threads created, and the network,
    which fixes how the [n]-th exchange goes. *)
Record world : Type := mkWorld
  { trace : list event;
    sockets : nat;
    calls : nat;
    threads : nat;
    net : nat -> behaviour }.

Definition emit (e : event) (w : world) : world :=
  {| trace := trace w ++ [e]; sockets := sockets w; calls := calls w;
     threads := threads w; net := net w |}.

Definition set_sockets (n : nat) (w : world) : world :=
  {| trace := trace w; sockets := n; calls := calls w;
     threads := threads w; net := net w |}.

Definition next_call (w : world) : world :=
  {| trace := trace w; sockets := sockets w; calls := S (calls w);
     threads := threads w; net := net w |}.

Definition next_thread (w : world) : world :=
  {| trace := trace w; sockets := sockets w; calls := calls w;
     threads := S (threads w); net := net w |}.

(** The payloads handed to [post_state], in order. *)
Fixpoint posts (t : list event) : list json :=
  match t with
  | [] => []
  | PostState p :: r => p :: posts r
  | _ :: r => posts r
  end.

(** The log records of a trace. *)
Fixpoint logs (t : list event) : list event :=
  match t with
  | [] => []
  | Log l f a :: r => Log l f a :: logs r
  | _ :: r => logs r
  end.

(** The requests of a trace that were put on the wire. *)
Fixpoint requests (t : list event) : list event :=
  match t with
  | [] => []
  | HttpRequest h p m path body hs :: r => HttpRequest h p m path body hs :: requests r
  | _ :: r => requests r
  end.

(** *** State and exceptions *)

Definition M (S A : Type) : Type := S -> result A * S.

Definition ret {S A} (a : A) : M S A := fun s => (Ok a, s).

Definition raise {S A} (e : exn) : M S A := fun s => (Raise e, s).

Definition bind {S A B} (m : M S A) (k : A -> M S B) : M S B :=
  fun s =>
    match m s with
    | (Ok a, s') => k a s'
    | (Raise e, s') => (Raise e, s')
    end.

Definition lift {S A} (r : result A) : M S A := fun s => (r, s).

Definition get {S} : M S S := fun s => (Ok s, s).

Definition modify {S} (f : S -> S) : M S unit := fun s => (Ok tt, f s).

(** [try: body except <classes>: handler]. *)
Definition try_except {S A} (body : M S A) (catches : exn -> bool)
  (handler : exn -> M S A) : M S A :=
  fun s =>
    match body s with
    | (Raise e, s') => if catches e then handler e s' else (Raise e, s')
    | r => r
    end.

(** [try: body finally: fin]: [fin] runs on every way out of [body]; an
    exception of [fin] replaces the outcome of [body]. *)
Definition try_finally {S A} (body : M S A) (fin : M S unit) : M S A :=
  fun s =>
    let (r, s') := body s in
    match fin s' with
    | (Ok _, s'') => (r, s'')
    | (Raise e, s'') => (Raise e, s'')
    end.

(** Code of the world run by an object that carries state of its own. *)
Definition on_world {O A} (m : M world A) : M (O * world) A :=
  fun '(o, w) => let (r, w') := m w in (r, (o, w')).

Definition on_self {O W A} (m : M O A) : M (O * W) A :=
  fun '(o, w) => let (r, o') := m o in (r, (o', w)).

Definition log (lvl : level) (fmt : string) (args : list arg) : M world unit :=
  modify (emit (Log lvl fmt args)).

Definition except_Exception (e : exn) : bool := true.

Definition except_ValueError (e : exn) : bool :=
  match e with
  | ValueError => true
  | _ => false
  end.

End Eff.

Declare Scope py_scope.
Delimit Scope py_scope with py.
Notation "x <- m ;; k" := (Eff.bind m (fun x => k))
  (at level 61, m at next level, right associativity) : py_scope.
Notation "m ;; k" := (Eff.bind m (fun _ => k))
  (at level 61, right associativity) : py_scope.
Notation "x <~ r ;; k" := (Py.and_then r (fun x => k))
  (at level 61, r at next level, right associativity) : py_scope.
Open Scope py_scope.

(** ** WLED client *)

Module Client.
Import Py Eff.

Record WLEDClient : Type := mkClient
  { host : string; port : Z; timeout : float }.

(** [json.dumps] on the values above: [", "] between items, [": "] after a
    key.  The keys of this module are plain identifiers, which are written
    between quotes as they are. *)
Definition quote : string := String "034"%char EmptyString.

Fixpoint json_dumps (j : json) : string :=
  match j with
  | JBool true => "true"%string
  | JBool false => "false"%string
  | JInt z => str_of_int z
  | JList l =>
      ("[" ++
       (fix items (l : list json) : string :=
          match l with
          | [] => EmptyString
          | x :: r =>
              match r with
              | [] => json_dumps x
              | _ => json_dumps x ++ ", " ++ items r
              end
          end) l ++ "]")%string
  | JDict kv =>
      ("{" ++
       (fix items (kv : list (string * json)) : string :=
          match kv with
          | [] => EmptyString
          | (k, v) :: r =>
              match r with
              | [] => quote ++ k ++ quote ++ ": " ++ json_dumps v
              | _ => quote ++ k ++ quote ++ ": " ++ json_dumps v ++ ", " ++ items r
              end
          end) kv ++ "}")%string
  end.

(** An [http.client.HTTPConnection]: whether it holds a socket. *)
Record HTTPConnection : Type := mkConn { sock : bool }.

Record HTTPResponse : Type := mkResp { status : Z; reason : string }.

(** The frame of one [post_state] call: the local [conn], unbound until the
    constructor has returned, and the world. *)
Definition frame : Type := (option HTTPConnection * world)%type.

(** [conn = http.client.HTTPConnection(host, port, timeout=...)]. *)
Definition HTTPConnection_init (b : behaviour) : M frame unit :=
  match outcome b with
  | InitFails e => raise e
  | _ => on_self (modify (fun _ => Some (mkConn false)))
  end.

(** [conn.request(...)]: connects, then writes the request. *)
Definition conn_request (b : behaviour) (self : WLEDClient)
  (method path body : string) (headers : list (string * string)) : M frame unit :=
  match outcome b with
  | ConnectFails e => raise e
  | SendFails e =>
      on_self (modify (fun _ => Some (mkConn true))) ;;
      on_world (modify (fun w => set_sockets (S (sockets w)) w)) ;;
      raise e
  | _ =>
      on_self (modify (fun _ => Some (mkConn true))) ;;
      on_world (modify (fun w => set_sockets (S (sockets w)) w)) ;;
      on_world (modify (emit (HttpRequest (host self) (port self) method path body headers)))
  end.

(** [resp = conn.getresponse()]. *)
Definition conn_getresponse (b : behaviour) : M frame HTTPResponse :=
  match outcome b with
  | ResponseFails e => raise e
  | ReadFails s r _ => ret (mkResp s r)
  | Responds s r => ret (mkResp s r)
  | InitFails e | ConnectFails e | SendFails e => raise e
  end.

(** [resp.read()]. *)
Definition resp_read (b : behaviour) : M frame unit :=
  match outcome b with
  | ReadFails _ _ e => raise e
  | _ => ret tt
  end.

(** [conn.close()]: an unbound [conn] is an [UnboundLocalError]; a bound
    one gives its socket back, and may still raise after that. *)
Definition conn_close (b : behaviour) : M frame unit :=
  c <- on_self get ;;
  match c with
  | None => raise UnboundLocalError
  | Some cn =>
      (if sock cn then
         on_self (modify (fun _ => Some (mkConn false))) ;;
         on_world (modify (fun w => set_sockets (pred (sockets w)) w))
       else ret tt) ;;
      match close_raises b with
      | Some e => raise e
      | None => ret tt
      end
  end.

Definition post_state (self : WLEDClient) (payload : json) : M world bool :=
  fun w0 =>
    let body := json_dumps payload in
    let b := net w0 (calls w0) in
    let run : M frame bool :=
      try_finally
        (try_except
           (HTTPConnection_init b ;;
            conn_request b self "POST" "/json/state" body
              [("Content-Type", "application/json");
               ("Content-Length", str_of_int (len body))]%string ;;
            resp <- conn_getresponse b ;;
            resp_read b ;;
            if (status resp <? 200) || (300 <=? status resp) then
              on_world (log WARNING "WLED HTTP %s %s: %s"
                          [AInt (status resp); AStr (reason resp); AStr body]) ;;
              ret false
            else ret true)
           except_Exception
           (fun e =>
              on_world (log ERROR "WLED request failed: %s" [AExn e]) ;;
              ret false))
        (try_except (conn_close b) except_Exception (fun _ => ret tt)) in
    let '(r, (_, w1)) := run (None, next_call (emit (PostState payload) w0)) in
    (r, w1).

(** The events of one exchange that follow the entry into [post_state],
    the value it returns, and the world it leaves, each read off the
    behaviour of the network at that exchange. *)
Definition wire (self : WLEDClient) (payload : json) (b : behaviour) : list event :=
  let body := json_dumps payload in
  let req := HttpRequest (host self) (port self) "POST" "/json/state" body
               [("Content-Type", "application/json");
                ("Content-Length", str_of_int (len body))]%string in
  match outcome b with
  | InitFails e | ConnectFails e | SendFails e =>
      [Log ERROR "WLED request failed: %s" [AExn e]]
  | ResponseFails e | ReadFails _ _ e =>
      [req; Log ERROR "WLED request failed: %s" [AExn e]]
  | Responds s r =>
      if (s <? 200) || (300 <=? s)
      then [req; Log WARNING "WLED HTTP %s %s: %s" [AInt s; AStr r; AStr body]]
      else [req]
  end.

Definition accepted (b : behaviour) : bool :=
  match outcome b with
  | Responds s r => negb ((s <? 200) || (300 <=? s))
  | _ => false
  end.

Definition posted (self : WLEDClient) (payload : json) (w : world) : world :=
  {| trace := trace w ++ PostState payload :: wire self payload (net w (calls w));
     sockets := sockets w;
     calls := S (calls w);
     threads := threads w;
     net := net w |}.

End Client.

(** ** Daylight cycle *)

Module Daylight.
Import Py Eff Client.

Definition color : Type := (Z * Z * Z)%type.

Definition DEFAULT_KEYFRAMES : list (Z * color) :=
  [ (0,  (40, 40, 100));
    (5,  (50, 50, 120));
    (6,  (255, 150, 80));
    (8,  (255, 220, 180));
    (12, (255, 255, 240));
    (16, (255, 240, 220));
    (18, (255, 140, 60));
    (20, (80, 60, 120));
    (21, (60, 60, 130));
    (24, (40, 40, 100)) ].

Record DaylightCycle : Type := mkDaylight
  { client : WLEDClient;
    cycle_duration : Z;
    led_count : Z;
    moon_start : Z;
    moon_length : Z;
    lightning_every_n : Z;
    keyframes : list (Z * color);
    update_interval : float;
    _running : bool;
    _thread : option nat;
    _cycle_count : Z;
    _start_time : float }.

(** [keyframes or self.DEFAULT_KEYFRAMES]: [None] and the empty dictionary
    both give the default table. *)
Definition DaylightCycle_init (client : WLEDClient)
  (cycle_duration_sec led_count moon_start moon_length lightning_every_n_cycles : Z)
  (keyframes : option (list (Z * color))) (update_interval : float) : DaylightCycle :=
  {| client := client;
     cycle_duration := cycle_duration_sec;
     led_count := led_count;
     moon_start := moon_start;
     moon_length := moon_length;
     lightning_every_n := lightning_every_n_cycles;
     keyframes := match keyframes with
                  | Some (kv :: r) => kv :: r
                  | _ => DEFAULT_KEYFRAMES
                  end;
     update_interval := update_interval;
     _running := false;
     _thread := None;
     _cycle_count := 0;
     _start_time := 0%float |}.

Definition set_running (b : bool) (d : DaylightCycle) : DaylightCycle :=
  {| client := client d; cycle_duration := cycle_duration d;
     led_count := led_count d; moon_start := moon_start d;
     moon_length := moon_length d; lightning_every_n := lightning_every_n d;
     keyframes := keyframes d; update_interval := update_interval d;
     _running := b; _thread := _thread d;
     _cycle_count := _cycle_count d; _start_time := _start_time d |}.

Definition set_thread (t : option nat) (d : DaylightCycle) : DaylightCycle :=
  {| client := client d; cycle_duration := cycle_duration d;
     led_count := led_count d; moon_start := moon_start d;
     moon_length := moon_length d; lightning_every_n := lightning_every_n d;
     keyframes := keyframes d; update_interval := update_interval d;
     _running := _running d; _thread := t;
     _cycle_count := _cycle_count d; _start_time := _start_time d |}.

(** *** Color interpolation *)

(** [int(a + (b - a) * t)]. *)
Definition _lerp (a b : Z) (t : float) : result Z :=
  x <~ int_mul_float (b - a) t ;;
  y <~ int_add_float a x ;;
  int_of_float y.

Definition _lerp_color (c1 c2 : color) (t : float) : result color :=
  let '(r1, g1, b1) := c1 in
  let '(r2, g2, b2) := c2 in
  r <~ _lerp r1 r2 t ;;
  g <~ _lerp g1 g2 t ;;
  b <~ _lerp b1 b2 t ;;
  Ok (r, g, b).

(** The [for] loop of [_get_sky_color] over the hours that are left, with
    the current [lower_h] and [upper_h]; [break] ends it. *)
Fixpoint bracket (virtual_hour : float) (hours : list Z) (lower_h upper_h : Z)
  : Z * Z :=
  match hours with
  | [] => (lower_h, upper_h)
  | h :: rest =>
      let lower_h := if int_le_float h virtual_hour then h else lower_h in
      if int_ge_float h virtual_hour then (lower_h, h)
      else bracket virtual_hour rest lower_h upper_h
  end.

Definition _get_sky_color (self : DaylightCycle) (virtual_hour : float)
  : result color :=
  let hours := sorted (dict_keys (keyframes self)) in
  lower0 <~ getitem hours 0 ;;
  upper0 <~ getitem hours (-1) ;;
  let '(lower_h, upper_h) := bracket virtual_hour hours lower0 upper0 in
  if lower_h =? upper_h then dict_getitem (keyframes self) lower_h
  else
    x <~ float_sub_int virtual_hour lower_h ;;
    t <~ float_div_int x (upper_h - lower_h) ;;
    c1 <~ dict_getitem (keyframes self) lower_h ;;
    c2 <~ dict_getitem (keyframes self) upper_h ;;
    _lerp_color c1 c2 t.

(** *** The bracket of a virtual hour, in the words of the keyframe table

    [l] is the greatest keyframe hour that is at most the virtual hour, [u]
    the least one that is at least it, and [interpolation_t] is
    [(virtual_hour - l) / (u - l)] as Python computes it. *)
Definition greatest_at_most (keys : list Z) (virtual_hour : float) (l : Z) : Prop :=
  In l keys /\ int_le_float l virtual_hour = true /\
  forall h, In h keys -> int_le_float h virtual_hour = true -> h <= l.

Definition least_at_least (keys : list Z) (virtual_hour : float) (u : Z) : Prop :=
  In u keys /\ int_ge_float u virtual_hour = true /\
  forall h, In h keys -> int_ge_float h virtual_hour = true -> u <= h.

Definition interpolation_t (virtual_hour : float) (l u : Z) : result float :=
  x <~ float_sub_int virtual_hour l ;;
  float_div_int x (u - l).

(** *** Night, and the segments of one update *)

Definition _is_night (self : DaylightCycle) (virtual_hour : float) : bool :=
  float_lt_int virtual_hour 5 || float_ge_int virtual_hour 21.

Definition _is_lightning_window (self : DaylightCycle) (virtual_hour : float) : bool :=
  float_ge_int virtual_hour 20 || float_lt_int virtual_hour 4.






(** The floats of the integers -255..255, tabulated once: [small_float n]
    is the float of [n - 255]. *)
Definition small_floats : list float :=
  Eval vm_compute in
    map (fun n => SF2Prim (binary_normalize prec emax (Z.of_nat n - 255) 0 false))
      (seq 0 511).

Definition small_float (n : nat) : float := nth n small_floats 0%float.

(** The floats of the channel values 0..255, upward and downward. *)
Definition channel_floats : list float :=
  Eval vm_compute in skipn 255 small_floats.

Definition channel_floats_down : list float :=
  Eval vm_compute in rev (skipn 255 small_floats).

(** One row and all rows of the table of [fa + fd * t] at [t = 0] and
    [t = 1]: [fa] runs down the channel values, [fd] up the differences
    from the place the row starts at, [fb] up the channel values. *)
Fixpoint ends_row (fa : float) (ld lb : list float) : bool :=
  match lb with
  | [] => true
  | fb :: lb' =>
      match ld with
      | [] => false
      | fd :: ld' =>
          PrimFloat.Leibniz.eqb (fa + fd * 0)%float fa &&
          PrimFloat.Leibniz.eqb (fa + fd * 1)%float fb &&
          ends_row fa ld' lb'
      end
  end.

Fixpoint ends_rows (la ld lb : list float) : bool :=
  match la with
  | [] => true
  | fa :: la' => ends_row fa ld lb && ends_rows la' (tl ld) lb
  end.

(** A color whose three channels are in the range of a byte. *)
Definition channel_color (c : color) : Prop :=
  let '(r, g, b) := c in 0 <= r <= 255 /\ 0 <= g <= 255 /\ 0 <= b <= 255.

(** *** Start and stop

    [_loop] runs on a thread of its own; of that thread the calling thread
    sees its start and the bounded join, which is what the trace records.
    What the loop itself does is not embedded: its posts, and its writes to
    [_start_time] and [_cycle_count], are the thread's and appear in no
    state of this model, so nothing below speaks for those two fields once
    a thread has been started. *)

Definition baseline (led_count : Z) : json :=
  JDict [("on", JBool true);
         ("mainseg", JInt 0);
         ("seg", JList [JDict [("id", JInt 0); ("start", JInt 0);
                               ("stop", JInt led_count); ("on", JBool true)]])]%string.

Definition Thread_start : M (DaylightCycle * world) unit :=
  fun '(d, w) =>
    let tid := threads w in
    (Ok tt, (set_thread (Some tid) d, emit (ThreadStart tid) (next_thread w))).

Definition start : M (DaylightCycle * world) unit :=
  self <- on_self get ;;
  if _running self then ret tt
  else
    on_world (post_state (client self) (baseline (led_count self))) ;;
    on_self (modify (set_running true)) ;;
    Thread_start ;;
    on_world (log INFO "Daylight cycle started (%.0f sec per 24h)"
                [AInt (cycle_duration self)]).

Definition stop : M (DaylightCycle * world) unit :=
  on_self (modify (set_running false)) ;;
  self <- on_self get ;;
  match _thread self with
  | Some tid => on_world (modify (emit (ThreadJoin tid 2)))
  | None => ret tt
  end ;;
  on_world (log INFO "Daylight cycle stopped" []).

(** The world after [stop]: the join of the thread, when there is one, and
    the log record. *)
Definition stopped_world (d : DaylightCycle) (w : world) : world :=
  emit (Log INFO "Daylight cycle stopped" [])
    match _thread d with
    | Some tid => emit (ThreadJoin tid 2) w
    | None => w
    end.

(** The world after a [start] that found the cycle stopped. *)
Definition started_world (d : DaylightCycle) (w : world) : world :=
  emit (Log INFO "Daylight cycle started (%.0f sec per 24h)" [AInt (cycle_duration d)])
    (emit (ThreadStart (threads w))
       (next_thread (posted (client d) (baseline (led_count d)) w))).

End Daylight.

(** ** The interpolated sky color, in the words of the specification

    The definitions of this module follow the specification and not the
    code: the interpolation parameter [t = (virtualHour - lowerHour) /
    (upperHour - lowerHour)], the linear interpolation [a + (b - a) * t] of
    a channel, and its truncation toward zero, all in binary64 arithmetic
    written with the operations of the kernel's floats.  The theorems
    compare [_get_sky_color] with them. *)

Module SkySpec.
Import Daylight.

(** The float nearest to an integer. *)
Definition to_float (z : Z) : float :=
  SF2Prim (binary_normalize prec emax z 0 false).

(** The exact value of a finite float, as a fraction [n / d] with
    [d > 0]. *)
Definition fraction (x : float) : option (Z * Z) :=
  match Prim2SF x with
  | S754_zero _ => Some (0, 1)
  | S754_finite s m e =>
      let n := if s then Z.neg m else Z.pos m in
      Some (if 0 <=? e then (n * 2 ^ e, 1) else (n, 2 ^ (- e)))
  | S754_infinity _ | S754_nan => None
  end.

(** Truncation toward zero: [Z.quot] is the quotient that rounds toward
    zero. *)
Definition truncate (x : float) : option Z :=
  match fraction x with
  | Some (n, d) => Some (Z.quot n d)
  | None => None
  end.

Definition parameter (virtual_hour : float) (lower_hour upper_hour : Z) : float :=
  ((virtual_hour - to_float lower_hour) / to_float (upper_hour - lower_hour))%float.

Definition channel (a b : Z) (t : float) : option Z :=
  truncate (to_float a + to_float (b - a) * t)%float.

Definition interpolate (c1 c2 : color) (t : float) : option color :=
  let '(r1, g1, b1) := c1 in
  let '(r2, g2, b2) := c2 in
  match channel r1 r2 t, channel g1 g2 t, channel b1 b2 t with
  | Some r, Some g, Some b => Some (r, g, b)
  | _, _, _ => None
  end.

End SkySpec.

(** ** Controller *)

Module Controller.
Import Py Eff Client Daylight.

Record WLEDController : Type := mkController
  { mapping : list (Z * Z * string);
    client : WLEDClient;
    pattern_presets : list Z;
    pattern_index : Z;
    daylight : option DaylightCycle }.

Definition set_daylight (d : option DaylightCycle) (c : WLEDController)
  : WLEDController :=
  {| mapping := mapping c; client := client c;
     pattern_presets := pattern_presets c; pattern_index := pattern_index c;
     daylight := d |}.

Definition set_pattern_index (i : Z) (c : WLEDController) : WLEDController :=
  {| mapping := mapping c; client := client c;
     pattern_presets := pattern_presets c; pattern_index := i;
     daylight := daylight c |}.

(** A method of [self.daylight], run on the controller's state. *)
Definition on_daylight {A} (m : M (DaylightCycle * world) A)
  : M (WLEDController * world) A :=
  fun '(c, w) =>
    match daylight c with
    | Some d =>
        let '(r, (d', w')) := m (d, w) in
        (r, (set_daylight (Some d') c, w'))
    | None => (Raise AttributeError, (c, w))
    end.

(** [pattern_presets or []], then the daylight cycle, created and started
    when asked for. *)
Definition WLEDController_init (mapping : list (Z * Z * string))
  (host : string) (port : Z) (pattern_presets : option (list Z)) (timeout : float)
  (daylight_cycle : bool)
  (cycle_duration_sec led_count moon_start moon_length lightning_every_n_cycles : Z)
  : M world WLEDController :=
  let client := mkClient host port timeout in
  let self :=
    {| mapping := mapping;
       client := client;
       pattern_presets := match pattern_presets with
                          | Some l => l
                          | None => []
                          end;
       pattern_index := 0;
       daylight := None |} in
  if daylight_cycle then
    let d := DaylightCycle_init client cycle_duration_sec led_count moon_start
               moon_length lightning_every_n_cycles None 1%float in
    fun w =>
      let '(r, (self', w')) := on_daylight start (set_daylight (Some d) self, w) in
      match r with
      | Ok _ => (Ok self', w')
      | Raise e => (Raise e, w')
      end
  else ret self.

Definition post (payload : json) : M (WLEDController * world) unit :=
  self <- on_self get ;;
  on_world (post_state (client self) payload) ;;
  ret tt.

Definition warn_not_configured : M (WLEDController * world) unit :=
  on_world (log WARNING "Daylight cycle not configured" []).

(** [action.split(":", 1)[1]]. *)
Definition argument (action : string) : result string :=
  getitem (split1 ":" action) 1.

Definition white : json := JList [JList [JInt 255; JInt 255; JInt 255]].

Definition apply_action (action : string) : M (WLEDController * world) unit :=
  self <- on_self get ;;
  if (action =? "on")%string then
    post (JDict [("on", JBool true)]%string)
  else if (action =? "off")%string then
    match daylight self with
    | Some _ => on_daylight stop
    | None => ret tt
    end ;;
    post (JDict [("on", JBool false)]%string)
  else if (action =? "full_white")%string then
    match daylight self with
    | Some _ => on_daylight stop
    | None => ret tt
    end ;;
    post (JDict [("on", JBool true); ("bri", JInt 255);
                 ("seg", JList [JDict [("id", JInt 0); ("col", white)]])]%string)
  else if (action =? "daylight_start")%string then
    match daylight self with
    | Some _ => on_daylight start
    | None => warn_not_configured
    end
  else if (action =? "daylight_stop")%string then
    match daylight self with
    | Some _ => on_daylight stop
    | None => warn_not_configured
    end
  else if startswith action "color:" then
    a <- lift (argument action) ;;
    let hex_color := lstrip "#" a in
    if len hex_color =? 6 then
      r <- lift (int_of_str (slice hex_color 0 2) 16) ;;
      g <- lift (int_of_str (slice hex_color 2 4) 16) ;;
      b <- lift (int_of_str (slice hex_color 4 6) 16) ;;
      post (JDict [("seg", JList [JDict [("id", JInt 0);
                     ("col", JList [JList [JInt r; JInt g; JInt b]])]])]%string)
    else
      on_world (log WARNING "Invalid color format: %s" [AStr hex_color])
  else if startswith action "brightness:" then
    try_except
      (a <- lift (argument action) ;;
       value <- lift (int_of_str a 10) ;;
       let value := Z.max 0 (Z.min 255 value) in
       post (JDict [("bri", JInt value)]%string))
      except_ValueError
      (fun _ => on_world (log WARNING "Invalid brightness action: %s" [AStr action]))
  else if startswith action "preset:" then
    try_except
      (a <- lift (argument action) ;;
       preset_id <- lift (int_of_str a 10) ;;
       post (JDict [("ps", JInt preset_id)]%string))
      except_ValueError
      (fun _ => on_world (log WARNING "Invalid preset action: %s" [AStr action]))
  else if (action =? "cycle")%string then
    match pattern_presets self with
    | [] => on_world (log WARNING "No pattern_presets configured for cycle action" [])
    | _ :: _ =>
        on_self (modify (set_pattern_index
                   ((pattern_index self + 1) mod Z.of_nat (List.length (pattern_presets self))))) ;;
        self <- on_self get ;;
        preset_id <- lift (getitem (pattern_presets self) (pattern_index self)) ;;
        post (JDict [("ps", JInt preset_id)]%string) ;;
        on_world (log INFO "WLED cycled to preset %s" [AInt preset_id])
    end
  else
    on_world (log WARNING "Unhandled WLED action: %s" [AStr action]).

(** [self.mapping.get(key)]. *)
Fixpoint mapping_get (m : list (Z * Z * string)) (key : Z * Z) : option string :=
  match m with
  | [] => None
  | (a, d, act) :: r =>
      if (a =? fst key) && (d =? snd key) then Some act else mapping_get r key
  end.

(** A missing key and an empty action string are both falsy. *)
Definition handle_packet (packet : list Z) (cmd_type : option Z)
  : M (WLEDController * world) bool :=
  match Frame.parse_tmcc_switch_or_accessory packet cmd_type with
  | None => ret false
  | Some parsed =>
      self <- on_self get ;;
      match mapping_get (mapping self) (Frame.address parsed, Frame.data_field parsed) with
      | None | Some EmptyString =>
          on_world (log DEBUG "WLED ignored addr=%s data=%s cmd_type=%s"
                      [AInt (Frame.address parsed); AInt (Frame.data_field parsed);
                       AInt (Frame.cmd_type parsed)]) ;;
          ret false
      | Some action =>
          on_world (log INFO "WLED action '%s' for addr %s data %s"
                      [AStr action; AInt (Frame.address parsed);
                       AInt (Frame.data_field parsed)]) ;;
          apply_action action ;;
          ret true
      end
  end.

(** A piece of controller code that leaves the preset cursor where it is,
    however it ends. *)
Definition keeps_index {A} (m : M (WLEDController * world) A) : Prop :=
  forall c w r c' w', m (c, w) = (r, (c', w')) -> pattern_index c' = pattern_index c.

(** The same action dispatched [k] times in a row. *)
Fixpoint repeat_action (k : nat) (action : string) : M (WLEDController * world) unit :=
  match k with
  | O => ret tt
  | S k' => apply_action action ;; repeat_action k' action
  end.

(** Controller code whose every run relates the controller before and
    after by [R]. *)
Definition preserves (R : WLEDController -> WLEDController -> Prop) {A}
  (m : M (WLEDController * world) A) : Prop :=
  forall c w r c' w', m (c, w) = (r, (c', w')) -> R c c'.

(** Controller code that makes no post, and code that makes at most one
    and none when it raises. *)
Definition quiet {A} (m : M (WLEDController * world) A) : Prop :=
  forall c w r c' w', m (c, w) = (r, (c', w')) -> posts (trace w') = posts (trace w).

Definition tame {A} (m : M (WLEDController * world) A) : Prop :=
  forall c w r c' w', m (c, w) = (r, (c', w')) ->
    exists extra,
      posts (trace w') = posts (trace w) ++ extra /\
      (List.length extra <= 1)%nat /\
      (forall e, r = Raise e -> extra = []).

(** The configuration of a daylight cycle: everything but its running
    flag and its thread. *)
Definition same_cycle (d d' : DaylightCycle) : Prop :=
  Daylight.client d' = Daylight.client d /\
  cycle_duration d' = cycle_duration d /\
  led_count d' = led_count d /\
  moon_start d' = moon_start d /\
  moon_length d' = moon_length d /\
  lightning_every_n d' = lightning_every_n d /\
  keyframes d' = keyframes d /\
  update_interval d' = update_interval d /\
  _cycle_count d' = _cycle_count d /\
  _start_time d' = _start_time d.

(** The configuration of a controller: its mapping, client and presets,
    and the configuration of its daylight cycle, present or absent. *)
Definition same_config (c c' : WLEDController) : Prop :=
  mapping c' = mapping c /\
  client c' = client c /\
  pattern_presets c' = pattern_presets c /\
  match daylight c, daylight c' with
  | None, None => True
  | Some d, Some d' => same_cycle d d'
  | _, _ => False
  end.

(** The payloads of the [full_white], color and preset posts. *)
Definition full_white_payload : json :=
  JDict [("on", JBool true); ("bri", JInt 255);
         ("seg", JList [JDict [("id", JInt 0); ("col", white)]])]%string.

Definition color_payload (r g b : Z) : json :=
  JDict [("seg", JList [JDict [("id", JInt 0);
           ("col", JList [JList [JInt r; JInt g; JInt b]])]])]%string.

Definition preset_payload (presets : list Z) (i : Z) : json :=
  JDict [("ps", JInt (nth (Z.to_nat i) presets 0))]%string.

(** The actions the dispatcher knows, as it tests them. *)
Definition known_action (action : string) : bool :=
  (action =? "on")%string || (action =? "off")%string ||
  (action =? "full_white")%string || (action =? "daylight_start")%string ||
  (action =? "daylight_stop")%string || startswith action "color:" ||
  startswith action "brightness:" || startswith action "preset:" ||
  (action =? "cycle")%string.

(** The actions that call into the daylight cycle. *)
Definition touches_daylight (action : string) : bool :=
  (action =? "off")%string || (action =? "full_white")%string ||
  (action =? "daylight_start")%string || (action =? "daylight_stop")%string.

(** What every run of [apply_action] has in common. *)
Definition action_facts (action : string) (c : WLEDController) (w : world)
  (r : result unit) (c' : WLEDController) (w' : world) : Prop :=
  same_config c c' /\
  sockets w' = sockets w /\
  (exists extra,
     posts (trace w') = posts (trace w) ++ extra /\
     (List.length extra <= 1)%nat /\
     (forall e, r = Raise e -> extra = [])) /\
  (forall e, r = Raise e ->
     e = ValueError /\ startswith action "color:" = true /\ c' = c /\ w' = w) /\
  (touches_daylight action = false -> daylight c' = daylight c).

(** The action a packet resolves to: none when the parser rejects it, when
    the mapping has no entry for its address and data, or when the entry
    is the empty string. *)
Definition resolve (c : WLEDController) (packet : list Z) (cmd_type : option Z)
  : option string :=
  match Frame.parse_tmcc_switch_or_accessory packet cmd_type with
  | None => None
  | Some parsed =>
      match mapping_get (mapping c) (Frame.address parsed, Frame.data_field parsed) with
      | Some (String a s) => Some (String a s)
      | _ => None
      end
  end.

(** The two log records of [handle_packet]. *)
Definition ignored_log (parsed : Frame.Parsed) : event :=
  Log DEBUG "WLED ignored addr=%s data=%s cmd_type=%s"
    [AInt (Frame.address parsed); AInt (Frame.data_field parsed);
     AInt (Frame.cmd_type parsed)].

Definition action_log (action : string) (parsed : Frame.Parsed) : event :=
  Log INFO "WLED action '%s' for addr %s data %s"
    [AStr action; AInt (Frame.address parsed); AInt (Frame.data_field parsed)].

(** The parameters a daylight cycle is built with, and the settings of a
    controller: its mapping, client and presets, and the parameters of its
    daylight cycle, present or absent.  The fields the loop thread writes
    ([_start_time], [_cycle_count]) and the running flag and thread are
    left out. *)
Definition same_parameters (d d' : DaylightCycle) : Prop :=
  Daylight.client d' = Daylight.client d /\
  cycle_duration d' = cycle_duration d /\
  led_count d' = led_count d /\
  moon_start d' = moon_start d /\
  moon_length d' = moon_length d /\
  lightning_every_n d' = lightning_every_n d /\
  keyframes d' = keyframes d /\
  update_interval d' = update_interval d.

Definition same_settings (c c' : WLEDController) : Prop :=
  mapping c' = mapping c /\
  client c' = client c /\
  pattern_presets c' = pattern_presets c /\
  match daylight c, daylight c' with
  | None, None => True
  | Some d, Some d' => same_parameters d d'
  | _, _ => False
  end.

End Controller.

(** ** Sample values

    A device that answers every request with [200 OK], a world with nothing
    in it yet, and the controller of the module's own test harness, with
    and without a running daylight cycle. *)

Module Sample.
Import Py Eff Client Daylight Controller.

Definition net_ok : nat -> behaviour :=
  fun _ => mkBehaviour (Responds 200 "OK") None.

Definition w0 : world :=
  {| trace := []; sockets := 0; calls := 0; threads := 0; net := net_ok |}.

Definition wled : WLEDClient := mkClient "192.168.0.10" 80 2%float.

Definition harness_mapping : list (Z * Z * string) :=
  [(50, 0x01, "on"); (50, 0x02, "off"); (50, 0x03, "cycle")]%string.

Definition harness : WLEDController :=
  {| mapping := harness_mapping; Controller.client := wled;
     pattern_presets := [1; 2; 3]; pattern_index := 0; daylight := None |}.

Definition no_presets : WLEDController :=
  {| mapping := harness_mapping; Controller.client := wled;
     pattern_presets := []; pattern_index := 0; daylight := None |}.

Definition cycle0 : DaylightCycle :=
  DaylightCycle_init wled 1800 100 0 5 3 None 1%float.

Definition running_cycle : DaylightCycle :=
  set_thread (Some 0%nat) (set_running true cycle0).

Definition with_daylight : WLEDController :=
  set_daylight (Some running_cycle) harness.

(** A frame for accessory 50, keypad 1, its switch twin with another
    command field, and the first packet of the test harness. *)
Definition on_packet : list Z := [0xFE; 0xD9; 0x01].

Definition on_packet_switch : list Z := [0xFE; 0x99; 0x21].

Definition harness_packet : list Z := [0xFE; 0xF2; 0x01].

End Sample.

(** * Properties *)

Section FrameFacts.
Import Frame.

Lemma parse_inv packet override r :
  parse_tmcc_switch_or_accessory packet override = Some r ->
  exists p1 p2,
    packet = [0xFE; p1; p2] /\
    accepted_type (frame_type p1 override) = true /\
    r = {| address := Z.lor (Z.shiftl (Z.land p1 0x3F) 1)
                            (Z.shiftr (Z.land p2 0x80) 7);
           cmd_field := Z.shiftr (Z.land p2 0x60) 5;
           data_field := Z.land p2 0x1F;
           cmd_type := frame_type p1 override |}.
Proof.
  unfold parse_tmcc_switch_or_accessory.
  destruct packet as [|p0 [|p1 [|p2 [|? ?]]]]; try discriminate.
  destruct (p0 =? 0xFE) eqn:E0; simpl; try discriminate.
  destruct (accepted_type (frame_type p1 override)) eqn:Ec; simpl; try discriminate.
  intros H; injection H as <-.
  apply Z.eqb_eq in E0; subst p0.
  exists p1, p2; auto.
Qed.

Lemma parse_accepts p1 p2 override :
  accepted_type (frame_type p1 override) = true ->
  parse_tmcc_switch_or_accessory [0xFE; p1; p2] override =
    Some {| address := Z.lor (Z.shiftl (Z.land p1 0x3F) 1)
                             (Z.shiftr (Z.land p2 0x80) 7);
            cmd_field := Z.shiftr (Z.land p2 0x60) 5;
            data_field := Z.land p2 0x1F;
            cmd_type := frame_type p1 override |}.
Proof.
  intros H; unfold parse_tmcc_switch_or_accessory; simpl.
  rewrite H; reflexivity.
Qed.

End FrameFacts.

Section FrameBits.

Lemma land_low_bits p n :
  0 <= n -> 0 <= Z.land p (Z.ones n) < 2 ^ n.
Proof.
  intros Hn; rewrite Z.land_ones by assumption.
  apply Z.mod_pos_bound, Z.pow_pos_nonneg; lia.
Qed.

Lemma address_low_bit p2 :
  Z.shiftr (Z.land p2 0x80) 7 = Z.land (Z.shiftr p2 7) (Z.ones 1).
Proof. rewrite Z.shiftr_land; reflexivity. Qed.

Lemma cmd_field_bits p2 :
  Z.shiftr (Z.land p2 0x60) 5 = Z.land (Z.shiftr p2 5) (Z.ones 2).
Proof. rewrite Z.shiftr_land; reflexivity. Qed.

Lemma lor_shifted_bit a y :
  0 <= y < 2 -> Z.lor (Z.shiftl a 1) y = 2 * a + y.
Proof.
  intros Hy.
  pose proof (Z.add_lor_land (Z.shiftl a 1) y) as H.
  rewrite Z.shiftl_mul_pow2 in * by lia.
  change (2 ^ 1) with 2 in *.
  assert (Z.land (a * 2) y = 0) as H0.
  { assert (y = 0 \/ y = 1) as [-> | ->] by lia.
    - apply Z.land_0_r.
    - change 1 with (Z.ones 1). rewrite Z.land_ones by lia.
      change (2 ^ 1) with 2. apply Z.mod_mul; lia. }
  lia.
Qed.

Lemma address_range p1 p2 :
  0 <= Z.lor (Z.shiftl (Z.land p1 0x3F) 1) (Z.shiftr (Z.land p2 0x80) 7) <= 127.
Proof.
  rewrite address_low_bit.
  pose proof (land_low_bits p1 6 ltac:(lia)) as H1.
  pose proof (land_low_bits (Z.shiftr p2 7) 1 ltac:(lia)) as H2.
  change (Z.ones 6) with 0x3F in H1.
  change (2 ^ 6) with 64 in H1. change (2 ^ 1) with 2 in H2.
  rewrite lor_shifted_bit by lia. lia.
Qed.

End FrameBits.

Section FrameClaims.
Import Frame.

(** C2. A packet whose length is not 3, or whose first byte is not the
    sentinel [0xFE], or whose frame-type code (bits 7-6 of the second byte,
    or the caller's override) is neither [0x02] nor [0x03], is rejected: the
    parser returns [None].  The parser is a total function into an option
    type, so there is no fault and no partly filled result; being a pure
    function of its two arguments, it has no effect on any state. *)
Theorem parse_rejects_malformed (packet : list Z) (override : option Z) :
  (List.length packet <> 3%nat \/
   hd_error packet <> Some 0xFE \/
   (frame_type (nth 1 packet 0) override <> 0x02 /\
    frame_type (nth 1 packet 0) override <> 0x03)) ->
  parse_tmcc_switch_or_accessory packet override = None.
Proof.
  intros H.
  destruct (parse_tmcc_switch_or_accessory packet override) as [r|] eqn:E;
    [exfalso | reflexivity].
  apply parse_inv in E as (p1 & p2 & -> & Hacc & _).
  unfold accepted_type in Hacc; apply orb_true_iff in Hacc.
  simpl in H.
  destruct H as [H | [H | [H2 H3]]].
  - apply H; reflexivity.
  - apply H; reflexivity.
  - destruct Hacc as [Hc | Hc]; apply Z.eqb_eq in Hc; congruence.
Qed.

(** C4. Every frame [[0xFE; p1; p2]] whose frame-type code (the override,
    or bits 7-6 of [p1]) is 2 or 3 is accepted, and decoded to
    address = ((p1 & 0x3F) << 1) | ((p2 & 0x80) >> 7),
    cmd_field = (p2 & 0x60) >> 5 and data_field = p2 & 0x1F, with that code
    as its type; every accepted packet is such a frame with these fields;
    and the two sample frames (0b11000000 = 0xC0, 0b11000001 = 0xC1,
    0b10000101 = 0x85) decode to address 0 and address 3, data 0 and data
    5, command field 0, both of the accessory type (3). *)
Theorem parse_fields (p1 p2 : Z) (override : option Z) :
  let code := match override with
              | Some c => c
              | None => Z.land (Z.shiftr p1 6) 0x03
              end in
  (code = 0x02 \/ code = 0x03 ->
   parse_tmcc_switch_or_accessory [0xFE; p1; p2] override =
     Some {| address := Z.lor (Z.shiftl (Z.land p1 0x3F) 1)
                              (Z.shiftr (Z.land p2 0x80) 7);
             cmd_field := Z.shiftr (Z.land p2 0x60) 5;
             data_field := Z.land p2 0x1F;
             cmd_type := code |}) /\
  (forall packet r,
     parse_tmcc_switch_or_accessory packet override = Some r ->
     exists q1 q2,
       packet = [0xFE; q1; q2] /\
       address r = Z.lor (Z.shiftl (Z.land q1 0x3F) 1) (Z.shiftr (Z.land q2 0x80) 7) /\
       cmd_field r = Z.shiftr (Z.land q2 0x60) 5 /\
       data_field r = Z.land q2 0x1F /\
       cmd_type r = match override with
                    | Some c => c
                    | None => Z.land (Z.shiftr q1 6) 0x03
                    end /\
       (cmd_type r = 0x02 \/ cmd_type r = 0x03)) /\
  parse_tmcc_switch_or_accessory [0xFE; 0xC0; 0x00] None =
    Some {| address := 0; cmd_field := 0; data_field := 0; cmd_type := 3 |} /\
  parse_tmcc_switch_or_accessory [0xFE; 0xC1; 0x85] None =
    Some {| address := 3; cmd_field := 0; data_field := 5; cmd_type := 3 |}.
Proof.
  intros code. split; [| split; [| split; reflexivity]].
  - intros Hc. apply parse_accepts.
    unfold accepted_type. fold code.
    change (frame_type p1 override) with code.
    destruct Hc as [-> | ->]; reflexivity.
  - intros packet r E.
    apply parse_inv in E as (q1 & q2 & -> & Hacc & ->).
    exists q1, q2. cbn [address cmd_field data_field cmd_type].
    repeat (split; [reflexivity |]).
    unfold accepted_type in Hacc. apply orb_true_iff in Hacc.
    unfold frame_type in Hacc.
    destruct Hacc as [H | H]; apply Z.eqb_eq in H; auto.
Qed.

(** C9. Whatever three integers an accepted packet holds, in or out of the
    byte range, the masks bound the result: address in 0..127, cmd_field in
    0..3, data_field in 0..31 and cmd_type 2 or 3. *)
Theorem parse_field_ranges (packet : list Z) (override : option Z) (r : Parsed) :
  parse_tmcc_switch_or_accessory packet override = Some r ->
  0 <= address r <= 127 /\
  0 <= cmd_field r <= 3 /\
  0 <= data_field r <= 31 /\
  (cmd_type r = 2 \/ cmd_type r = 3).
Proof.
  intros E.
  apply parse_inv in E as (p1 & p2 & -> & Hacc & ->); simpl.
  split; [apply address_range |].
  split.
  { rewrite cmd_field_bits.
    pose proof (land_low_bits (Z.shiftr p2 5) 2 ltac:(lia)) as H.
    change (2 ^ 2) with 4 in H; lia. }
  split.
  { pose proof (land_low_bits p2 5 ltac:(lia)) as H.
    change (Z.ones 5) with 0x1F in H. change (2 ^ 5) with 32 in H; lia. }
  unfold accepted_type in Hacc; apply orb_true_iff in Hacc.
  destruct Hacc as [H | H]; apply Z.eqb_eq in H; auto.
Qed.

End FrameClaims.

Section TraceFacts.
Import Eff.

Lemma posts_app t1 t2 : posts (t1 ++ t2) = posts t1 ++ posts t2.
Proof.
  induction t1 as [|e t1 IH]; simpl; [reflexivity |].
  destruct e; simpl; rewrite IH; reflexivity.
Qed.

Lemma logs_app t1 t2 : logs (t1 ++ t2) = logs t1 ++ logs t2.
Proof.
  induction t1 as [|e t1 IH]; simpl; [reflexivity |].
  destruct e; simpl; rewrite IH; reflexivity.
Qed.

End TraceFacts.

Section ClientFacts.
Import Py Eff Client.

(** Every run of [post_state], whatever the network does. *)
Lemma post_state_run self payload w :
  post_state self payload w =
    (Ok (accepted (net w (calls w))), posted self payload w).
Proof.
  unfold post_state, posted, wire, accepted.
  destruct (net w (calls w)) as [o cr].
  destruct o as [e|e|e|e|s r e|s r], cr as [ce|];
    cbv - [Z.ltb Z.leb json_dumps str_of_int len app];
    try (destruct (s <? 200); [| destruct (300 <=? s)]);
    rewrite <- ?app_assoc; reflexivity.
Qed.

Lemma posts_wire self payload b : posts (wire self payload b) = [].
Proof.
  unfold wire; destruct (outcome b) as [e|e|e|e|s r e|s r]; simpl; try reflexivity.
  destruct ((s <? 200) || (300 <=? s)); reflexivity.
Qed.

Lemma posts_posted self payload w :
  posts (trace (posted self payload w)) = posts (trace w) ++ [payload].
Proof.
  unfold posted; simpl. rewrite posts_app; simpl.
  rewrite posts_wire; reflexivity.
Qed.

End ClientFacts.

Section ClientClaims.
Import Py Eff Client.

(** C6. For every payload and every behaviour of the network,
    [post_state] returns a boolean and raises nothing.  It returns [true]
    exactly when a response was read to its end and its status is in
    200..299; when it returns [false] it has written one log record (a
    warning for the status, an error for a failed transport); and every
    socket the call opened has been closed when it returns, on each of its
    ways out. *)
Theorem post_state_boolean (self : WLEDClient) (payload : json) (w : world) :
  exists ok w',
    post_state self payload w = (Ok ok, w') /\
    (ok = true <->
     exists s r, outcome (net w (calls w)) = Responds s r /\ 200 <= s < 300) /\
    (ok = false ->
     exists lvl fmt args, logs (trace w') = logs (trace w) ++ [Log lvl fmt args]) /\
    sockets w' = sockets w.
Proof.
  exists (accepted (net w (calls w))), (posted self payload w).
  split; [apply post_state_run |].
  split; [| split; [| reflexivity]].
  - unfold accepted.
    destruct (outcome (net w (calls w))) as [e|e|e|e|s r e|s r];
      try (split; [discriminate | intros (s' & r' & H & _); discriminate]).
    split.
    + intros H. exists s, r; split; [reflexivity |].
      apply negb_true_iff, orb_false_iff in H as [H1 H2].
      apply Z.ltb_ge in H1. apply Z.leb_gt in H2. lia.
    + intros (s' & r' & H & Hs); injection H as <- <-.
      apply negb_true_iff, orb_false_iff; split;
        [apply Z.ltb_ge | apply Z.leb_gt]; lia.
  - unfold accepted, posted, wire; simpl.
    destruct (outcome (net w (calls w))) as [e|e|e|e|s r e|s r]; intros H;
      rewrite logs_app; simpl; eauto.
    apply negb_false_iff in H; rewrite H; simpl; eauto.
Qed.

End ClientClaims.

Section DaylightFacts.
Import Py Eff Client Daylight.

Lemma stop_run d w :
  stop (d, w) = (Ok tt, (set_running false d, stopped_world d w)).
Proof.
  unfold stop, stopped_world.
  destruct d as [cl cd lc ms ml ln kf ui run th cc st]; destruct th; reflexivity.
Qed.

Lemma posts_stopped_world d w :
  posts (trace (stopped_world d w)) = posts (trace w).
Proof.
  unfold stopped_world; destruct (_thread d); simpl;
    rewrite ?posts_app; simpl; rewrite ?posts_app; simpl;
    rewrite ?app_nil_r; reflexivity.
Qed.

Lemma start_run d w :
  start (d, w) =
    if _running d then (Ok tt, (d, w))
    else (Ok tt, (set_thread (Some (threads w)) (set_running true d),
                  started_world d w)).
Proof.
  unfold start, started_world.
  destruct d as [cl cd lc ms ml ln kf ui run th cc st]; destruct run;
    [reflexivity |].
  unfold bind, on_self, on_world, get; simpl.
  rewrite post_state_run; reflexivity.
Qed.

Lemma posts_started_world d w :
  posts (trace (started_world d w)) = posts (trace w) ++ [baseline (led_count d)].
Proof.
  unfold started_world; simpl.
  rewrite !posts_app; simpl. rewrite posts_wire, !app_nil_r.
  reflexivity.
Qed.

End DaylightFacts.

Section ControllerFacts.
Import Py Eff Client Daylight Controller.

Lemma post_run payload c w :
  post payload (c, w) = (Ok tt, (c, posted (Controller.client c) payload w)).
Proof.
  unfold post, bind, on_self, on_world, get; simpl.
  rewrite post_state_run; reflexivity.
Qed.

Lemma on_daylight_stop_run c d w :
  daylight c = Some d ->
  on_daylight stop (c, w) =
    (Ok tt, (set_daylight (Some (set_running false d)) c, stopped_world d w)).
Proof.
  intros Hd; unfold on_daylight; rewrite Hd, stop_run; reflexivity.
Qed.

Lemma apply_off_run c d w :
  daylight c = Some d ->
  apply_action "off" (c, w) =
    (Ok tt,
     (set_daylight (Some (set_running false d)) c,
      posted (Controller.client c) (JDict [("on", JBool false)]%string)
        (stopped_world d w))).
Proof.
  intros Hd.
  unfold apply_action, bind at 1, on_self at 1, get; simpl.
  rewrite Hd. unfold bind at 1.
  rewrite (on_daylight_stop_run _ _ _ Hd), post_run; reflexivity.
Qed.

End ControllerFacts.

Section ControllerClaims.
Import Py Eff Client Daylight Controller.

(** C3. On a controller whose daylight cycle is configured and running,
    the action [off] first stops the cycle and only then posts
    [{on: false}]: [stop] alone leads to a cycle that is stopped, in a world
    [w1] with no post added, and [apply_action] ends as [post_state] does
    when it is run from that world [w1], so that the entry into [post_state]
    with [{on: false}] comes after everything [stop] did. *)
Theorem off_stops_before_post (c : WLEDController) (d : DaylightCycle) (w : world) :
  daylight c = Some d ->
  _running d = true ->
  exists d1 w1 ok w2,
    stop (d, w) = (Ok tt, (d1, w1)) /\
    _running d1 = false /\
    posts (trace w1) = posts (trace w) /\
    post_state (Controller.client c) (JDict [("on", JBool false)]%string) w1 = (Ok ok, w2) /\
    apply_action "off" (c, w) = (Ok tt, (set_daylight (Some d1) c, w2)) /\
    exists tail,
      trace w2 = trace w1 ++ PostState (JDict [("on", JBool false)]%string) :: tail /\
      posts tail = [].
Proof.
  intros Hd _.
  exists (set_running false d), (stopped_world d w).
  eexists; eexists.
  split; [apply stop_run |].
  split; [reflexivity |].
  split; [apply posts_stopped_world |].
  split; [apply post_state_run |].
  split; [apply (apply_off_run _ _ _ Hd) |].
  eexists; split; [reflexivity | apply posts_wire].
Qed.


End ControllerClaims.

Section CursorFacts.
Import Py Eff Client Daylight Controller.

Lemma keeps_ret {A} (a : A) : keeps_index (ret a).
Proof. intros c w r c' w' H; injection H as _ <- _; reflexivity. Qed.

Lemma keeps_lift {A} (x : result A) : keeps_index (lift x).
Proof. intros c w r c' w' H; injection H as _ <- _; reflexivity. Qed.

Lemma keeps_get : keeps_index (on_self get).
Proof. intros c w r c' w' H; injection H as _ <- _; reflexivity. Qed.

Lemma keeps_on_world {A} (m : M world A) : keeps_index (on_world m).
Proof.
  intros c w r c' w' H; unfold on_world in H.
  destruct (m w) as [r1 w1]; injection H as _ <- _; reflexivity.
Qed.

Lemma keeps_on_daylight {A} (m : M (DaylightCycle * world) A) :
  keeps_index (on_daylight m).
Proof.
  intros c w r c' w' H; unfold on_daylight in H.
  destruct (daylight c) as [d|].
  - destruct (m (d, w)) as [r1 [d1 w1]]; injection H as _ <- _; reflexivity.
  - injection H as _ <- _; reflexivity.
Qed.

Lemma keeps_bind {A B} (m : M (WLEDController * world) A)
  (k : A -> M (WLEDController * world) B) :
  keeps_index m -> (forall a, keeps_index (k a)) -> keeps_index (bind m k).
Proof.
  intros Hm Hk c w r c' w' H; unfold bind in H.
  destruct (m (c, w)) as [[a|e] [c1 w1]] eqn:E.
  - apply Hk in H. apply Hm in E. congruence.
  - injection H as _ <- _. apply Hm in E; exact E.
Qed.

Lemma keeps_try_except {A} (m : M (WLEDController * world) A) catches handler :
  keeps_index m -> (forall e, keeps_index (handler e)) ->
  keeps_index (try_except m catches handler).
Proof.
  intros Hm Hh c w r c' w' H; unfold try_except in H.
  destruct (m (c, w)) as [[a|e] [c1 w1]] eqn:E.
  - injection H as _ <- _. apply Hm in E; exact E.
  - destruct (catches e).
    + apply Hh in H. apply Hm in E. congruence.
    + injection H as _ <- _. apply Hm in E; exact E.
Qed.

Lemma keeps_post payload : keeps_index (post payload).
Proof.
  intros c w r c' w' H; rewrite post_run in H.
  injection H as _ <- _; reflexivity.
Qed.

End CursorFacts.

Ltac keeps_step :=
  first
    [ apply keeps_post
    | apply keeps_ret
    | apply keeps_lift
    | apply keeps_get
    | apply keeps_on_world
    | apply keeps_on_daylight
    | apply keeps_bind; [| intros ?]
    | apply keeps_try_except; [| intros ?]
    | match goal with
      | |- Controller.keeps_index (if ?b then _ else _) => destruct b
      | |- Controller.keeps_index (match ?x with _ => _ end) => destruct x
      end ].

Section CycleFacts.
Import Py Eff Client Daylight Controller.

Lemma other_actions_keep_index action :
  (action =? "cycle")%string = false -> keeps_index (apply_action action).
Proof.
  intros Hc; unfold apply_action, warn_not_configured.
  rewrite Hc.
  repeat keeps_step.
Qed.

Lemma getitem_nth {A} (l : list A) (i : Z) :
  0 <= i < Z.of_nat (List.length l) ->
  exists a, nth_error l (Z.to_nat i) = Some a /\ getitem l i = Ok a.
Proof.
  intros Hi; unfold getitem.
  assert ((i <? 0) = false) as H1 by (apply Z.ltb_ge; lia).
  assert ((Z.of_nat (List.length l) <=? i) = false) as H2 by (apply Z.leb_gt; lia).
  cbv zeta. rewrite H1. cbv iota. rewrite H1, H2. simpl.
  destruct (nth_error l (Z.to_nat i)) as [a|] eqn:E.
  - exists a; split; reflexivity.
  - apply nth_error_None in E; lia.
Qed.

Lemma apply_cycle_empty c w :
  pattern_presets c = [] ->
  apply_action "cycle" (c, w) =
    (Ok tt, (c, emit (Log WARNING "No pattern_presets configured for cycle action" []) w)).
Proof.
  intros H; unfold apply_action, bind at 1, on_self at 1, get; simpl.
  rewrite H; reflexivity.
Qed.

Lemma apply_cycle_run c w :
  pattern_presets c <> [] ->
  let i' := (pattern_index c + 1) mod Z.of_nat (List.length (pattern_presets c)) in
  exists preset_id,
    nth_error (pattern_presets c) (Z.to_nat i') = Some preset_id /\
    apply_action "cycle" (c, w) =
      (Ok tt,
       (set_pattern_index i' c,
        emit (Log INFO "WLED cycled to preset %s" [AInt preset_id])
          (posted (Controller.client c) (JDict [("ps", JInt preset_id)]%string) w))).
Proof.
  intros Hne i'.
  assert (0 <= i' < Z.of_nat (List.length (pattern_presets c))) as Hi.
  { apply Z.mod_pos_bound. destruct (pattern_presets c); [congruence | simpl; lia]. }
  destruct (getitem_nth _ _ Hi) as (p & Hnth & Hget).
  exists p; split; [exact Hnth |].
  unfold apply_action, bind at 1, on_self at 1, get; simpl.
  destruct (pattern_presets c) as [|x l] eqn:E; [congruence |].
  unfold bind at 1, on_self at 1, modify.
  unfold bind at 1, on_self at 1, get.
  cbn [pattern_presets pattern_index set_pattern_index].
  rewrite E. fold i'. unfold bind at 1, lift. rewrite Hget.
  unfold bind at 1. rewrite post_run. reflexivity.
Qed.

End CycleFacts.

Section ActionFacts.
Import Py Eff Client Daylight Controller.

Lemma startswith_app p s : startswith (p ++ s) p = true.
Proof.
  unfold startswith; induction p as [|a p IH]; simpl.
  - destruct s; reflexivity.
  - rewrite IH. destruct (ascii_dec a a); [reflexivity | congruence].
Qed.

(** An action [brightness:<s>] reaches the brightness branch with [s] as
    its argument. *)
Lemma apply_brightness_branch s :
  apply_action ("brightness:" ++ s) =
    (self <- on_self get ;;
     try_except
       (value <- lift (int_of_str s 10) ;;
        post (JDict [("bri", JInt (Z.max 0 (Z.min 255 value)))]%string))
       except_ValueError
       (fun _ => on_world (log WARNING "Invalid brightness action: %s"
                             [AStr ("brightness:" ++ s)]))).
Proof.
  unfold apply_action.
  rewrite (startswith_app "brightness:" s). reflexivity.
Qed.

(** An action [color:<s>] reaches the color branch with [s] as its
    argument. *)
Lemma apply_color_branch s :
  apply_action ("color:" ++ s) =
    (self <- on_self get ;;
     let hex_color := lstrip "#" s in
     if len hex_color =? 6 then
       r <- lift (int_of_str (slice hex_color 0 2) 16) ;;
       g <- lift (int_of_str (slice hex_color 2 4) 16) ;;
       b <- lift (int_of_str (slice hex_color 4 6) 16) ;;
       post (JDict [("seg", JList [JDict [("id", JInt 0);
                      ("col", JList [JList [JInt r; JInt g; JInt b]])]])]%string)
     else
       on_world (log WARNING "Invalid color format: %s" [AStr hex_color])).
Proof.
  unfold apply_action.
  rewrite (startswith_app "color:" s). reflexivity.
Qed.

End ActionFacts.

Section ActionClaims.
Import Py Eff Client Daylight Controller.

(** C7. With no presets, [cycle] writes a warning and makes no post; with
    [n > 0] presets and the cursor at [i], it moves the cursor to
    [(i + 1) mod n] and makes exactly one post, [{ps: id}] with the preset
    stored at the new cursor; and every action other than [cycle] leaves
    the cursor where it was, however the action ends. *)
Theorem cycle_preset_cursor (c : WLEDController) (w : world) :
  (pattern_presets c = [] ->
   exists w',
     apply_action "cycle" (c, w) = (Ok tt, (c, w')) /\
     posts (trace w') = posts (trace w) /\
     logs (trace w') =
       logs (trace w) ++
       [Log WARNING "No pattern_presets configured for cycle action" []]) /\
  ((0 < List.length (pattern_presets c))%nat ->
   let i' := (pattern_index c + 1) mod Z.of_nat (List.length (pattern_presets c)) in
   exists preset_id w',
     nth_error (pattern_presets c) (Z.to_nat i') = Some preset_id /\
     apply_action "cycle" (c, w) = (Ok tt, (set_pattern_index i' c, w')) /\
     posts (trace w') = posts (trace w) ++ [JDict [("ps", JInt preset_id)]%string]) /\
  (forall action r c' w',
     (action =? "cycle")%string = false ->
     apply_action action (c, w) = (r, (c', w')) ->
     pattern_index c' = pattern_index c).
Proof.
  split; [| split].
  - intros H. eexists; split; [apply (apply_cycle_empty c w H) |].
    unfold emit; simpl. rewrite posts_app, logs_app; simpl.
    rewrite app_nil_r; split; reflexivity.
  - intros Hn i'.
    assert (pattern_presets c <> []) as Hne
      by (destruct (pattern_presets c); [simpl in Hn; lia | discriminate]).
    destruct (apply_cycle_run c w Hne) as (p & Hnth & Hrun).
    exists p; eexists; split; [exact Hnth |]. split; [exact Hrun |].
    unfold emit; cbn [trace]. rewrite posts_app, posts_posted; simpl.
    rewrite app_nil_r; reflexivity.
  - intros action r c' w' Hc H.
    exact (other_actions_keep_index action Hc c w r c' w' H).
Qed.

(** C8. When the argument of a brightness action parses as the integer
    [v], the action makes exactly one post, [{bri: max(0, min(255, v))}];
    for [999] that is [{bri: 255}].  When the argument is no numeral, the
    action makes no post and writes one warning. *)
Theorem brightness_clamped (s : string) (c : WLEDController) (w : world) :
  (forall v, parse_int 10 s = Some v ->
     exists w',
       apply_action ("brightness:" ++ s) (c, w) = (Ok tt, (c, w')) /\
       posts (trace w') =
         posts (trace w) ++ [JDict [("bri", JInt (Z.max 0 (Z.min 255 v)))]%string]) /\
  (parse_int 10 s = None ->
     exists w',
       apply_action ("brightness:" ++ s) (c, w) = (Ok tt, (c, w')) /\
       posts (trace w') = posts (trace w) /\
       logs (trace w') =
         logs (trace w) ++
         [Log WARNING "Invalid brightness action: %s" [AStr ("brightness:" ++ s)]]) /\
  (exists w',
     apply_action "brightness:999" (c, w) = (Ok tt, (c, w')) /\
     posts (trace w') = posts (trace w) ++ [JDict [("bri", JInt 255)]%string]).
Proof.
  assert (forall s v, parse_int 10 s = Some v ->
            apply_action ("brightness:" ++ s) (c, w) =
              (Ok tt, (c, posted (Controller.client c)
                            (JDict [("bri", JInt (Z.max 0 (Z.min 255 v)))]%string) w))) as Hok.
  { intros s0 v Hv. rewrite apply_brightness_branch.
    unfold bind at 1, on_self, get, try_except, bind at 1, lift, int_of_str.
    rewrite Hv. rewrite post_run. reflexivity. }
  split; [| split].
  - intros v Hv. eexists; split; [apply (Hok s v Hv) | apply posts_posted].
  - intros Hv. rewrite apply_brightness_branch.
    unfold bind at 1, on_self, get, try_except, bind at 1, lift, int_of_str.
    rewrite Hv. eexists; split; [reflexivity |].
    unfold emit; simpl. rewrite posts_app, logs_app; simpl.
    rewrite app_nil_r; split; reflexivity.
  - eexists; split; [apply (Hok "999"%string 999); reflexivity | apply posts_posted].
Qed.

(** C1 (as the code behaves). A color action whose argument, with its
    leading [#] characters stripped, has six characters of which one of the
    three pairs is no hexadecimal numeral makes no post, but it writes no
    log record either and ends in a [ValueError] that [apply_action] lets
    through to its caller: the world and the controller are as before. *)
Theorem color_malformed_raises (s : string) (c : WLEDController) (w : world) :
  len (lstrip "#" s) = 6 ->
  parse_int 16 (slice (lstrip "#" s) 0 2) = None \/
  parse_int 16 (slice (lstrip "#" s) 2 4) = None \/
  parse_int 16 (slice (lstrip "#" s) 4 6) = None ->
  apply_action ("color:" ++ s) (c, w) = (Raise ValueError, (c, w)).
Proof.
  intros Hlen Hbad. rewrite apply_color_branch.
  unfold bind at 1, on_self, get. cbv zeta.
  rewrite Hlen. change (6 =? 6) with true. cbv iota.
  unfold bind, lift, int_of_str.
  destruct (parse_int 16 (slice (lstrip "#" s) 0 2)) as [r|]; [| reflexivity].
  destruct (parse_int 16 (slice (lstrip "#" s) 2 4)) as [g|]; [| reflexivity].
  destruct (parse_int 16 (slice (lstrip "#" s) 4 6)) as [b|]; [| reflexivity].
  destruct Hbad as [H | [H | H]]; discriminate.
Qed.

End ActionClaims.

Section SortedFacts.
Import Py.

Lemma insert_sorted_In x y l : In y (insert_sorted x l) <-> y = x \/ In y l.
Proof.
  induction l as [|z l IH]; simpl.
  - intuition.
  - destruct (x <=? z); simpl; rewrite ?IH; intuition.
Qed.

Lemma insert_sorted_sorted x l :
  StronglySorted Z.le l -> StronglySorted Z.le (insert_sorted x l).
Proof.
  induction 1 as [|z l Hs IH Hall]; simpl.
  - constructor; constructor.
  - destruct (x <=? z) eqn:E.
    + apply Z.leb_le in E. constructor; [constructor; assumption |].
      constructor; [exact E |].
      rewrite Forall_forall in *. intros y Hy. specialize (Hall y Hy). lia.
    + apply Z.leb_gt in E. constructor; [exact IH |].
      rewrite Forall_forall in *. intros y Hy.
      apply insert_sorted_In in Hy as [-> | Hy]; [lia | auto].
Qed.

Lemma sorted_In y l : In y (sorted l) <-> In y l.
Proof.
  induction l as [|x l IH]; simpl; [tauto |].
  rewrite insert_sorted_In, IH. intuition.
Qed.

Lemma sorted_sorted l : StronglySorted Z.le (sorted l).
Proof.
  induction l as [|x l IH]; simpl; [constructor | apply insert_sorted_sorted, IH].
Qed.

Lemma getitem_first {A} (a : A) (l : list A) : getitem (a :: l) 0 = Ok a.
Proof. reflexivity. Qed.

Lemma getitem_last {A} (a : A) (l : list A) : exists b, getitem (a :: l) (-1) = Ok b.
Proof.
  unfold getitem. cbv zeta. change (-1 <? 0) with true. cbv iota.
  set (n := Z.of_nat (List.length (a :: l))).
  assert (1 <= n) by (unfold n; simpl List.length; lia).
  assert ((-1 + n <? 0) = false) as -> by (apply Z.ltb_ge; lia).
  assert ((n <=? -1 + n) = false) as -> by (apply Z.leb_gt; lia).
  simpl orb. cbv iota.
  destruct (nth_error (a :: l) (Z.to_nat (-1 + n))) as [b|] eqn:E; [eauto |].
  apply nth_error_None in E. unfold n in *. lia.
Qed.

Lemma dict_find_In {V} (d : list (Z * V)) k :
  In k (dict_keys d) -> exists v, dict_find d k = Some v.
Proof.
  induction d as [|[k' v] d IH]; simpl; [tauto |].
  intros [-> | H].
  - rewrite Z.eqb_refl; eauto.
  - destruct (k' =? k); eauto.
Qed.

(** An integer at most a float is at most every integer at least it. *)
Lemma int_le_ge_order l u x :
  int_le_float l x = true -> int_ge_float u x = true -> l <= u.
Proof.
  unfold int_le_float, int_ge_float, int_cmp_float.
  destruct (Prim2SF x) as [s|s| |s m e].
  - destruct (l ?= 0) eqn:El; try discriminate;
      destruct (u ?= 0) eqn:Eu; try discriminate; intros _ _;
      rewrite ?Z.compare_eq_iff, ?Z.compare_lt_iff, ?Z.compare_gt_iff in *; lia.
  - destruct s; discriminate.
  - discriminate.
  - set (n := if s then Z.neg m else Z.pos m).
    destruct (0 <=? e) eqn:Ee.
    + destruct (l ?= n * 2 ^ e) eqn:El; try discriminate;
        destruct (u ?= n * 2 ^ e) eqn:Eu; try discriminate; intros _ _;
        rewrite ?Z.compare_eq_iff, ?Z.compare_lt_iff, ?Z.compare_gt_iff in *; lia.
    + apply Z.leb_gt in Ee.
      assert (0 < 2 ^ (- e)) as Hp by (apply Z.pow_pos_nonneg; lia).
      destruct (l * 2 ^ (- e) ?= n) eqn:El; try discriminate;
        destruct (u * 2 ^ (- e) ?= n) eqn:Eu; try discriminate; intros _ _;
        rewrite ?Z.compare_eq_iff, ?Z.compare_lt_iff, ?Z.compare_gt_iff in *; nia.
Qed.

End SortedFacts.

Section Bracket.
Import Py Daylight.

Variable vh : float.
Variables l u : Z.
Hypothesis Hl : int_le_float l vh = true.
Hypothesis Hu : int_ge_float u vh = true.

(** The loop, run over hours in ascending order that still hold [u], ends
    with [l] and [u] when [l] is still to come or is the current lower hour
    already. *)
Lemma bracket_found hours :
  StronglySorted Z.le hours ->
  In u hours ->
  (forall h, In h hours -> int_ge_float h vh = true -> u <= h) ->
  (forall h, In h hours -> int_le_float h vh = true -> h <= l) ->
  forall lower upper,
    (In l hours \/
     (lower = l /\ forall h, In h hours -> int_le_float h vh = true -> h = l)) ->
    bracket vh hours lower upper = (l, u).
Proof.
  pose proof (int_le_ge_order l u vh Hl Hu) as Hlu.
  induction 1 as [|h rest Hs IH Hall]; intros Hin Hleast Hgreat lower upper Hinv.
  - destruct Hin.
  - rewrite Forall_forall in Hall. simpl.
    destruct (int_ge_float h vh) eqn:Eg.
    + assert (h = u) as ->.
      { assert (u <= h) by (apply Hleast; [left; reflexivity | exact Eg]).
        destruct Hin as [-> | Hin]; [reflexivity |].
        specialize (Hall u Hin). lia. }
      destruct (int_le_float u vh) eqn:El.
      * assert (u <= l) by (apply Hgreat; [left; reflexivity | exact El]).
        f_equal; lia.
      * destruct Hinv as [[-> | Hinl] | [-> _]]; [congruence | | reflexivity].
        specialize (Hall l Hinl).
        assert (l = u) as -> by lia. congruence.
    + assert (In u rest) as Hin'
        by (destruct Hin as [-> | Hin]; [congruence | exact Hin]).
      apply IH; auto.
      * intros k Hk; apply Hleast; right; exact Hk.
      * intros k Hk; apply Hgreat; right; exact Hk.
      * destruct Hinv as [[-> | Hinl] | [-> Hall']].
        -- right. rewrite Hl. split; [reflexivity |].
           intros k Hk Hle.
           assert (k <= l) by (apply Hgreat; [right; exact Hk | exact Hle]).
           specialize (Hall k Hk). lia.
        -- left; exact Hinl.
        -- right. split.
           ++ destruct (int_le_float h vh) eqn:El; [| reflexivity].
              apply Hall'; [left; reflexivity | exact El].
           ++ intros k Hk; apply Hall'; right; exact Hk.
Qed.

End Bracket.

Section Extremes.

(** Among the elements of a list that pass a test, when there is one, there
    is a greatest and a least. *)
Lemma greatest_passing (p : Z -> bool) (keys : list Z) :
  (exists x, In x keys /\ p x = true) ->
  exists m, In m keys /\ p m = true /\ forall x, In x keys -> p x = true -> x <= m.
Proof.
  induction keys as [|k keys IH]; intros (x & Hx & Hp); [destruct Hx |].
  destruct (existsb p keys) eqn:E.
  - apply existsb_exists in E. destruct (IH E) as (m & Hm & Hpm & Hmax).
    destruct (p k) eqn:Ek.
    + destruct (Z.le_gt_cases k m).
      * exists m; repeat split; [right; exact Hm | exact Hpm |].
        intros y [<- | Hy] Hy'; auto.
      * exists k; repeat split; [left; reflexivity | exact Ek |].
        intros y [<- | Hy] Hy'; [lia |]. specialize (Hmax y Hy Hy'); lia.
    + exists m; repeat split; [right; exact Hm | exact Hpm |].
      intros y [<- | Hy] Hy'; [congruence | auto].
  - assert (forall y, In y keys -> p y = true -> False) as Hnone.
    { intros y Hy Hy'.
      assert (existsb p keys = true) by (apply existsb_exists; eauto). congruence. }
    destruct Hx as [<- | Hx]; [| exfalso; eauto].
    exists k; repeat split; [left; reflexivity | exact Hp |].
    intros y [<- | Hy] Hy'; [lia | exfalso; eauto].
Qed.

Lemma least_passing (p : Z -> bool) (keys : list Z) :
  (exists x, In x keys /\ p x = true) ->
  exists m, In m keys /\ p m = true /\ forall x, In x keys -> p x = true -> m <= x.
Proof.
  induction keys as [|k keys IH]; intros (x & Hx & Hp); [destruct Hx |].
  destruct (existsb p keys) eqn:E.
  - apply existsb_exists in E. destruct (IH E) as (m & Hm & Hpm & Hmin).
    destruct (p k) eqn:Ek.
    + destruct (Z.le_gt_cases m k).
      * exists m; repeat split; [right; exact Hm | exact Hpm |].
        intros y [<- | Hy] Hy'; auto.
      * exists k; repeat split; [left; reflexivity | exact Ek |].
        intros y [<- | Hy] Hy'; [lia |]. specialize (Hmin y Hy Hy'); lia.
    + exists m; repeat split; [right; exact Hm | exact Hpm |].
      intros y [<- | Hy] Hy'; [congruence | auto].
  - assert (forall y, In y keys -> p y = true -> False) as Hnone.
    { intros y Hy Hy'.
      assert (existsb p keys = true) by (apply existsb_exists; eauto). congruence. }
    destruct Hx as [<- | Hx]; [| exfalso; eauto].
    exists k; repeat split; [left; reflexivity | exact Hp |].
    intros y [<- | Hy] Hy'; [lia | exfalso; eauto].
Qed.

End Extremes.

Section SkyColor.
Import Py Daylight.

Lemma sky_color_at_bracket self vh l u :
  greatest_at_most (dict_keys (keyframes self)) vh l ->
  least_at_least (dict_keys (keyframes self)) vh u ->
  exists c1 c2,
    dict_find (keyframes self) l = Some c1 /\
    dict_find (keyframes self) u = Some c2 /\
    _get_sky_color self vh =
      if l =? u then Ok c1
      else (t <~ interpolation_t vh l u ;; _lerp_color c1 c2 t).
Proof.
  intros (Hlin & Hl & Hgreat) (Huin & Hu & Hleast).
  destruct (dict_find_In _ _ Hlin) as (c1 & Hc1).
  destruct (dict_find_In _ _ Huin) as (c2 & Hc2).
  exists c1, c2; split; [exact Hc1 |]; split; [exact Hc2 |].
  unfold _get_sky_color.
  pose proof (sorted_sorted (dict_keys (keyframes self))) as Hs.
  assert (In l (sorted (dict_keys (keyframes self)))) as Hl' by (apply sorted_In; exact Hlin).
  assert (In u (sorted (dict_keys (keyframes self)))) as Hu' by (apply sorted_In; exact Huin).
  assert (bracket_ok : forall lower upper,
            bracket vh (sorted (dict_keys (keyframes self))) lower upper = (l, u)).
  { intros lower upper.
    apply (bracket_found vh l u Hl Hu); auto.
    - intros h Hh; apply Hleast, sorted_In, Hh.
    - intros h Hh; apply Hgreat, sorted_In, Hh. }
  destruct (sorted (dict_keys (keyframes self))) as [|h0 rest] eqn:E; [destruct Hl' |].
  rewrite getitem_first. destruct (getitem_last h0 rest) as (b & ->).
  cbn [and_then]. rewrite bracket_ok.
  unfold dict_getitem, interpolation_t. rewrite Hc1, Hc2.
  destruct (l =? u); [reflexivity |].
  destruct (float_sub_int vh l) as [x|e]; [| reflexivity]. cbn [and_then].
  destruct (float_div_int x (u - l)) as [t|e]; reflexivity.
Qed.

Lemma sky_color_at_keyframe self vh h c :
  dict_find (keyframes self) h = Some c ->
  int_cmp_float h vh = Some Eq ->
  _get_sky_color self vh = Ok c.
Proof.
  intros Hc Heq.
  assert (In h (dict_keys (keyframes self))) as Hin.
  { clear Heq. induction (keyframes self) as [|[k v] d IH]; [discriminate |].
    simpl in *. destruct (k =? h) eqn:E; [left; apply Z.eqb_eq, E | right; auto]. }
  assert (int_le_float h vh = true) as Hle by (unfold int_le_float; rewrite Heq; reflexivity).
  assert (int_ge_float h vh = true) as Hge by (unfold int_ge_float; rewrite Heq; reflexivity).
  destruct (sky_color_at_bracket self vh h h) as (c1 & c2 & H1 & _ & Hsky).
  - repeat split; auto. intros k _ Hk. exact (int_le_ge_order k h vh Hk Hge).
  - repeat split; auto. intros k _ Hk. exact (int_le_ge_order h k vh Hle Hk).
  - rewrite Z.eqb_refl in Hsky. congruence.
Qed.

Lemma bracket_exists keys vh lo hi :
  In lo keys -> In hi keys ->
  int_le_float lo vh = true -> int_ge_float hi vh = true ->
  exists l u, greatest_at_most keys vh l /\ least_at_least keys vh u.
Proof.
  intros Hlo Hhi Hle Hge.
  destruct (greatest_passing (fun h => int_le_float h vh) keys) as (l & ? & ? & ?); [eauto |].
  destruct (least_passing (fun h => int_ge_float h vh) keys) as (u & ? & ? & ?); [eauto |].
  exists l, u; split; repeat split; auto.
Qed.

(** [int] truncates toward zero: the integer part of [-x] is the opposite
    of that of [x], and the integer part of a positive float is the floor of
    its value. *)
Lemma int_of_float_opp x :
  int_of_float (- x)%float =
    match int_of_float x with
    | Ok z => Ok (- z)
    | Raise e => Raise e
    end.
Proof.
  unfold int_of_float. rewrite FloatAxioms.opp_spec.
  destruct (Prim2SF x) as [s|s| |s m e]; simpl; try reflexivity.
  destruct s; simpl; f_equal; lia.
Qed.

End SkyColor.

(** * The claims at sample inputs *)

Section Witnesses.
Import Py Eff Client Daylight Controller Sample.

Lemma parse_rejects_malformed_witness :
  Frame.parse_tmcc_switch_or_accessory [0xFE; 0x40] None = None /\
  Frame.parse_tmcc_switch_or_accessory [0xFD; 0xC0; 0x00] None = None /\
  Frame.parse_tmcc_switch_or_accessory [0xFE; 0x40; 0x00] None = None /\
  Frame.parse_tmcc_switch_or_accessory [0xFE; 0xC0; 0x00] (Some 1) = None.
Proof.
  split; [| split; [| split]]; apply parse_rejects_malformed.
  - left; simpl; lia.
  - right; left; simpl; intros H; injection H as H; lia.
  - right; right; vm_compute; split; intros H; discriminate H.
  - right; right; vm_compute; split; intros H; discriminate H.
Defined.

Lemma parse_fields_witness :
  Frame.parse_tmcc_switch_or_accessory [0xFE; 0xF2; 0x83] None =
    Some (Frame.mkParsed 101 0 3 3) /\
  Frame.parse_tmcc_switch_or_accessory [0xFE; 0x19; 0x21] (Some 2) =
    Some (Frame.mkParsed 50 1 1 2).
Proof.
  split.
  - refine (proj1 (parse_fields 0xF2 0x83 None) _). right; reflexivity.
  - refine (proj1 (parse_fields 0x19 0x21 (Some 2)) _). left; reflexivity.
Defined.

Lemma parse_field_ranges_witness :
  0 <= 127 <= 127 /\ 0 <= 3 <= 3 /\ 0 <= 31 <= 31 /\ (2 = 2 \/ 2 = 3).
Proof.
  exact (parse_field_ranges [0xFE; -1; -1] (Some 2)
           (Frame.mkParsed 127 3 31 2) eq_refl).
Defined.

Lemma off_stops_before_post_witness :
  exists d1 w1 ok w2,
    stop (running_cycle, w0) = (Ok tt, (d1, w1)) /\
    _running d1 = false /\
    posts (trace w1) = posts (trace w0) /\
    post_state wled (JDict [("on", JBool false)]%string) w1 = (Ok ok, w2) /\
    apply_action "off" (with_daylight, w0) =
      (Ok tt, (set_daylight (Some d1) with_daylight, w2)) /\
    exists tail,
      trace w2 = trace w1 ++ PostState (JDict [("on", JBool false)]%string) :: tail /\
      posts tail = [].
Proof.
  exact (off_stops_before_post with_daylight running_cycle w0 eq_refl eq_refl).
Defined.

Lemma cycle_preset_cursor_witness :
  (exists w',
     apply_action "cycle" (no_presets, w0) = (Ok tt, (no_presets, w')) /\
     posts (trace w') = posts (trace w0) /\
     logs (trace w') =
       logs (trace w0) ++
       [Log WARNING "No pattern_presets configured for cycle action" []]) /\
  (exists preset_id w',
     nth_error [1; 2; 3] 1 = Some preset_id /\
     apply_action "cycle" (harness, w0) = (Ok tt, (set_pattern_index 1 harness, w')) /\
     posts (trace w') = posts (trace w0) ++ [JDict [("ps", JInt preset_id)]%string]) /\
  pattern_index (fst (snd (apply_action "off" (harness, w0)))) = 0.
Proof.
  split; [| split].
  - exact (proj1 (cycle_preset_cursor no_presets w0) eq_refl).
  - refine (proj1 (proj2 (cycle_preset_cursor harness w0)) _).
    simpl; lia.
  - refine (proj2 (proj2 (cycle_preset_cursor harness w0)) "off"%string
              (fst (apply_action "off" (harness, w0)))
              (fst (snd (apply_action "off" (harness, w0))))
              (snd (snd (apply_action "off" (harness, w0)))) _ _);
      reflexivity.
Defined.

Lemma brightness_clamped_witness :
  (exists w',
     apply_action "brightness:-7" (harness, w0) = (Ok tt, (harness, w')) /\
     posts (trace w') = posts (trace w0) ++ [JDict [("bri", JInt 0)]%string]) /\
  (exists w',
     apply_action "brightness:bright" (harness, w0) = (Ok tt, (harness, w')) /\
     posts (trace w') = posts (trace w0) /\
     logs (trace w') =
       logs (trace w0) ++
       [Log WARNING "Invalid brightness action: %s" [AStr "brightness:bright"]]).
Proof.
  split.
  - refine (proj1 (brightness_clamped "-7" harness w0) (-7) _). reflexivity.
  - refine (proj1 (proj2 (brightness_clamped "bright" harness w0)) _). reflexivity.
Defined.

Lemma color_malformed_raises_witness :
  apply_action "color:zzzzzz" (harness, w0) = (Raise ValueError, (harness, w0)) /\
  apply_action "color:#12345g" (harness, w0) = (Raise ValueError, (harness, w0)).
Proof.
  split.
  - refine (color_malformed_raises "zzzzzz" harness w0 _ _);
      [reflexivity | left; reflexivity].
  - refine (color_malformed_raises "#12345g" harness w0 _ _);
      [reflexivity | right; right; reflexivity].
Defined.

End Witnesses.

(** * Further properties of the module *)

Section FrameMore.
Import Frame.

Lemma land_low_byte p m :
  Z.land 0xFF m = m -> Z.land (p mod 256) m = Z.land p m.
Proof.
  intros Hm. change 256 with (2 ^ 8). rewrite <- Z.land_ones by lia.
  rewrite <- Z.land_assoc. change (Z.ones 8) with 0xFF. rewrite Hm. reflexivity.
Qed.

Lemma frame_type_low_byte p1 override :
  frame_type (p1 mod 256) override = frame_type p1 override.
Proof.
  destruct override as [c|]; [reflexivity |]. unfold frame_type.
  change 256 with (2 ^ 8). rewrite <- Z.land_ones by lia.
  rewrite Z.shiftr_land, <- Z.land_assoc. reflexivity.
Qed.

(** X1. The parser reads each of the last two integers of a packet through
    masks of at most eight bits, so an integer outside the byte range, a
    negative one included, is decoded as its low byte. *)
Theorem parse_reads_low_bytes (p1 p2 : Z) (override : option Z) :
  parse_tmcc_switch_or_accessory [0xFE; p1; p2] override =
  parse_tmcc_switch_or_accessory [0xFE; p1 mod 256; p2 mod 256] override.
Proof.
  unfold parse_tmcc_switch_or_accessory; simpl.
  rewrite frame_type_low_byte.
  rewrite !land_low_byte by reflexivity. reflexivity.
Qed.

(** X2. For a packet of bytes decoded without an override, the four fields
    hold all of the two data bytes: the second byte is
    [64 * cmd_type + address / 2] and the third is
    [128 * (address mod 2) + 32 * cmd_field + data_field].  Two accepted
    frames with the same fields are therefore the same frame. *)
Theorem fields_determine_bytes (p1 p2 : Z) (r : Parsed) :
  0 <= p1 <= 255 ->
  0 <= p2 <= 255 ->
  parse_tmcc_switch_or_accessory [0xFE; p1; p2] None = Some r ->
  p1 = 64 * cmd_type r + address r / 2 /\
  p2 = 128 * (address r mod 2) + 32 * cmd_field r + data_field r.
Proof.
  intros H1 H2 E.
  apply parse_inv in E as (q1 & q2 & Hp & _ & ->).
  injection Hp as <- <-.
  cbn [address cmd_field data_field cmd_type frame_type].
  rewrite address_low_bit, cmd_field_bits.
  rewrite lor_shifted_bit
    by (pose proof (land_low_bits (Z.shiftr p2 7) 1 ltac:(lia)) as H;
        change (2 ^ 1) with 2 in H; lia).
  change 0x3F with (Z.ones 6). change 0x1F with (Z.ones 5). change 0x03 with (Z.ones 2).
  rewrite !Z.land_ones by lia. rewrite !Z.shiftr_div_pow2 by lia.
  change (2 ^ 1) with 2. change (2 ^ 2) with 4. change (2 ^ 5) with 32.
  change (2 ^ 6) with 64. change (2 ^ 7) with 128.
  split; Z.div_mod_to_equations; lia.
Qed.

End FrameMore.

Section DaylightMore.
Import Py Eff Client Daylight.

(** X3. [start] is idempotent: whatever the state of the cycle, a second
    [start] right after the first changes nothing, neither the cycle nor
    the world.  A first [start] on a stopped cycle makes one baseline post
    and creates one thread; on a running cycle it does nothing at all. *)
Theorem start_twice_is_start_once (d : DaylightCycle) (w : world) :
  exists d1 w1,
    start (d, w) = (Ok tt, (d1, w1)) /\
    start (d1, w1) = (Ok tt, (d1, w1)) /\
    _running d1 = true /\
    if _running d then d1 = d /\ w1 = w
    else posts (trace w1) = posts (trace w) ++ [baseline (led_count d)] /\
         threads w1 = S (threads w).
Proof.
  rewrite start_run. destruct (_running d) eqn:Er.
  - exists d, w. rewrite start_run, Er. auto.
  - eexists; eexists; split; [reflexivity |].
    split; [rewrite start_run; reflexivity |].
    split; [reflexivity |].
    split; [apply posts_started_world | reflexivity].
Qed.

(** X4. [stop] followed by [start] restarts the cycle from any state: the
    cycle ends up running on a thread created by this [start], exactly one
    post is made on the way, the baseline, and the cycle counter and the
    keyframe table are what they were ([stop] and [start] reset neither). *)
Theorem stop_then_start_restarts (d : DaylightCycle) (w : world) :
  exists d1 w1 d2 w2,
    stop (d, w) = (Ok tt, (d1, w1)) /\
    start (d1, w1) = (Ok tt, (d2, w2)) /\
    _running d1 = false /\
    _running d2 = true /\
    _thread d2 = Some (threads w) /\
    threads w2 = S (threads w) /\
    posts (trace w2) = posts (trace w) ++ [baseline (led_count d)] /\
    _cycle_count d2 = _cycle_count d /\
    keyframes d2 = keyframes d.
Proof.
  exists (set_running false d), (stopped_world d w).
  eexists; eexists.
  split; [apply stop_run |].
  split; [rewrite start_run; reflexivity |].
  split; [reflexivity |].
  split; [reflexivity |].
  split; [unfold stopped_world; destruct (_thread d); reflexivity |].
  split; [unfold stopped_world; destruct (_thread d); reflexivity |].
  split; [| split; reflexivity].
  rewrite posts_started_world, posts_stopped_world. reflexivity.
Qed.

End DaylightMore.

Section FloatOrder.
Import Py.

(** Comparing two integers with one float: the comparison is monotone in
    the integer. *)
Lemma int_cmp_float_mono h1 h2 x :
  h1 <= h2 ->
  (int_cmp_float h1 x = Some Gt -> int_cmp_float h2 x = Some Gt) /\
  (int_cmp_float h2 x = Some Lt -> int_cmp_float h1 x = Some Lt) /\
  (int_le_float h2 x = true -> int_le_float h1 x = true).
Proof.
  intros Hh. unfold int_le_float, int_cmp_float.
  assert (forall a b c : Z, a <= b ->
            ((a ?= c) = Gt -> (b ?= c) = Gt) /\
            ((b ?= c) = Lt -> (a ?= c) = Lt) /\
            (match b ?= c with Lt | Eq => true | Gt => false end = true ->
             match a ?= c with Lt | Eq => true | Gt => false end = true)) as Hcmp.
  { intros a b c Hab.
    destruct (Z.compare_spec a c), (Z.compare_spec b c);
      repeat split; intros; try reflexivity; try discriminate; lia. }
  destruct (Prim2SF x) as [s|s| |s m e].
  - destruct (Hcmp h1 h2 0 Hh) as (A & B & C).
    repeat split; intros H;
      [injection H as H; rewrite (A H) | injection H as H; rewrite (B H) | apply C, H];
      reflexivity.
  - destruct s; repeat split; intros H; first [discriminate | reflexivity].
  - repeat split; intros H; discriminate.
  - destruct (0 <=? e) eqn:Ee.
    + destruct (Hcmp h1 h2 ((if s then Z.neg m else Z.pos m) * 2 ^ e) Hh) as (A & B & C).
      repeat split; intros H;
        [injection H as H; rewrite (A H) | injection H as H; rewrite (B H) | apply C, H];
        reflexivity.
    + apply Z.leb_gt in Ee.
      assert (0 < 2 ^ (- e)) as Hp by (apply Z.pow_pos_nonneg; lia).
      assert (h1 * 2 ^ (- e) <= h2 * 2 ^ (- e)) as Hm by nia.
      destruct (Hcmp _ _ (if s then Z.neg m else Z.pos m) Hm) as (A & B & C).
      repeat split; intros H;
        [injection H as H; rewrite (A H) | injection H as H; rewrite (B H) | apply C, H];
        reflexivity.
Qed.

Lemma float_lt_int_mono h1 h2 x :
  h1 <= h2 -> float_lt_int x h1 = true -> float_lt_int x h2 = true.
Proof.
  intros Hh; unfold float_lt_int.
  destruct (int_cmp_float h1 x) as [[| |]|] eqn:E; try discriminate.
  intros _. rewrite (proj1 (int_cmp_float_mono h1 h2 x Hh) E). reflexivity.
Qed.

Lemma float_ge_int_mono h1 h2 x :
  h1 <= h2 -> float_ge_int x h2 = true -> float_ge_int x h1 = true.
Proof.
  intros Hh. exact (proj2 (proj2 (int_cmp_float_mono h1 h2 x Hh))).
Qed.

Lemma float_lt_ge_int x h : float_lt_int x h = true -> float_ge_int x h = false.
Proof.
  unfold float_lt_int, float_ge_int.
  destruct (int_cmp_float h x) as [[| |]|]; intros H; first [discriminate | reflexivity].
Qed.

End FloatOrder.

Section NightFacts.
Import Py Eff Daylight.

(** X5. The night of the moon segment and the lightning window overlap
    but are not the same hours: an hour in the lightning window that is not
    night lies in [20, 21), an hour of the night that is outside the
    lightning window lies in [4, 5), and an hour that is not a number is
    in neither. *)
Theorem night_and_lightning_window (self : DaylightCycle) (virtual_hour : float) :
  (_is_lightning_window self virtual_hour = true ->
   _is_night self virtual_hour = false ->
   float_ge_int virtual_hour 20 = true /\ float_lt_int virtual_hour 21 = true) /\
  (_is_night self virtual_hour = true ->
   _is_lightning_window self virtual_hour = false ->
   float_ge_int virtual_hour 4 = true /\ float_lt_int virtual_hour 5 = true) /\
  (int_cmp_float 0 virtual_hour = None ->
   _is_night self virtual_hour = false /\
   _is_lightning_window self virtual_hour = false).
Proof.
  unfold _is_night, _is_lightning_window.
  split; [| split].
  - intros Hl Hn.
    apply orb_false_iff in Hn as [Hn5 Hn21].
    apply orb_true_iff in Hl as [Hl | Hl].
    + split; [exact Hl |].
      unfold float_lt_int, float_ge_int in *.
      destruct (int_cmp_float 21 virtual_hour) as [[| |]|] eqn:E;
        try discriminate; try reflexivity.
      unfold int_cmp_float in *.
      destruct (Prim2SF virtual_hour); discriminate.
    + rewrite (float_lt_int_mono 4 5 virtual_hour ltac:(lia) Hl) in Hn5. discriminate.
  - intros Hn Hl.
    apply orb_false_iff in Hl as [Hl20 Hl4].
    apply orb_true_iff in Hn as [Hn | Hn].
    + split; [| exact Hn].
      unfold float_lt_int, float_ge_int in *.
      destruct (int_cmp_float 4 virtual_hour) as [[| |]|] eqn:E;
        try discriminate; try reflexivity.
      unfold int_cmp_float in *.
      destruct (Prim2SF virtual_hour); discriminate.
    + rewrite (float_ge_int_mono 20 21 virtual_hour ltac:(lia) Hn) in Hl20. discriminate.
  - intros Hnan. unfold float_lt_int, float_ge_int, int_cmp_float in *.
    destruct (Prim2SF virtual_hour); try discriminate. split; reflexivity.
Qed.


End NightFacts.

Section SkyEdges.
Import Py Daylight.

Lemma sorted_head_least h0 rest keys m :
  sorted keys = h0 :: rest ->
  In m keys -> (forall h, In h keys -> m <= h) -> h0 = m.
Proof.
  intros E Hm Hmin.
  pose proof (sorted_sorted keys) as Hs. rewrite E in Hs.
  assert (In h0 keys) as Hh0 by (apply sorted_In; rewrite E; left; reflexivity).
  assert (In m (h0 :: rest)) as Hm' by (rewrite <- E; apply sorted_In, Hm).
  specialize (Hmin h0 Hh0).
  inversion Hs as [|? ? _ Hall]; subst. rewrite Forall_forall in Hall.
  destruct Hm' as [-> | Hm']; [reflexivity |]. specialize (Hall m Hm'). lia.
Qed.

Lemma sorted_last_greatest l d :
  StronglySorted Z.le l -> forall x, In x l -> x <= last l d.
Proof.
  induction 1 as [|a l Hs IH Hall]; intros x Hx; [destruct Hx |].
  rewrite Forall_forall in Hall.
  destruct l as [|b l]; [destruct Hx as [-> | []]; simpl; lia |].
  change (last (a :: b :: l) d) with (last (b :: l) d).
  destruct Hx as [-> | Hx]; [| apply IH, Hx].
  specialize (Hall b (or_introl eq_refl)).
  assert (b <= last (b :: l) d) by (apply IH; left; reflexivity). lia.
Qed.

Lemma last_default {A} (x : A) l d1 d2 : last (x :: l) d1 = last (x :: l) d2.
Proof.
  revert x; induction l as [|y l IH]; intros x; [reflexivity |].
  change (last (x :: y :: l) d1) with (last (y :: l) d1).
  change (last (x :: y :: l) d2) with (last (y :: l) d2).
  apply IH.
Qed.

Lemma nth_error_last {A} (a : A) l :
  nth_error (a :: l) (List.length l) = Some (last (a :: l) a).
Proof.
  revert a; induction l as [|x l IH]; intros a; [reflexivity |].
  change (nth_error (a :: x :: l) (List.length (x :: l)))
    with (nth_error (x :: l) (List.length l)).
  rewrite IH. f_equal.
  change (last (a :: x :: l) a) with (last (x :: l) a).
  apply last_default.
Qed.

Lemma getitem_last_is_last {A} (a : A) (l : list A) :
  getitem (a :: l) (-1) = Ok (last (a :: l) a).
Proof.
  unfold getitem. cbv zeta. change (-1 <? 0) with true. cbv iota.
  set (n := Z.of_nat (List.length (a :: l))).
  assert (1 <= n) by (unfold n; simpl List.length; lia).
  assert ((-1 + n <? 0) = false) as -> by (apply Z.ltb_ge; lia).
  assert ((n <=? -1 + n) = false) as -> by (apply Z.leb_gt; lia).
  simpl orb. cbv iota.
  assert (Z.to_nat (-1 + n) = List.length l) as -> by (unfold n; simpl List.length; lia).
  rewrite nth_error_last. reflexivity.
Qed.

End SkyEdges.

Section SkyOutside.
Import Py Daylight.

Lemma dict_find_key {V} (d : list (Z * V)) k v :
  dict_find d k = Some v -> In k (dict_keys d).
Proof.
  induction d as [|[k' v'] d IH]; [discriminate |].
  simpl. destruct (k' =? k) eqn:E; [left; apply Z.eqb_eq, E | right; auto].
Qed.

Lemma bracket_all_less vh hours :
  (forall h, In h hours -> int_cmp_float h vh = Some Lt) ->
  forall lower upper, bracket vh hours lower upper = (last hours lower, upper).
Proof.
  induction hours as [|h rest IH]; intros Hall lower upper; [reflexivity |].
  assert (int_cmp_float h vh = Some Lt) as Hh by (apply Hall; left; reflexivity).
  simpl bracket. unfold int_le_float, int_ge_float. rewrite Hh.
  rewrite IH by (intros k Hk; apply Hall; right; exact Hk).
  f_equal. destruct rest; [reflexivity |].
  change (last (h :: z :: rest) lower) with (last (z :: rest) lower).
  apply last_default.
Qed.

(** X7. A virtual hour outside the keyframe table is clamped to the table:
    below the least keyframe hour the sky color is the color stored at the
    least hour, above the greatest keyframe hour (plus infinity included)
    it is the color stored at the greatest hour; nothing is interpolated
    and nothing is raised. *)
Theorem sky_color_outside_table
  (self : DaylightCycle) (virtual_hour : float) (lo hi : Z) (clo chi : color) :
  dict_find (keyframes self) lo = Some clo ->
  dict_find (keyframes self) hi = Some chi ->
  (forall h, In h (dict_keys (keyframes self)) -> lo <= h <= hi) ->
  (float_lt_int virtual_hour lo = true -> _get_sky_color self virtual_hour = Ok clo) /\
  (int_cmp_float hi virtual_hour = Some Lt -> _get_sky_color self virtual_hour = Ok chi).
Proof.
  intros Hclo Hchi Hrange.
  pose proof (dict_find_key _ _ _ Hclo) as Hlo.
  pose proof (dict_find_key _ _ _ Hchi) as Hhi.
  pose proof (sorted_sorted (dict_keys (keyframes self))) as Hs.
  unfold _get_sky_color.
  destruct (sorted (dict_keys (keyframes self))) as [|h0 rest] eqn:E.
  { apply sorted_In in Hlo. rewrite E in Hlo. destruct Hlo. }
  rewrite getitem_first, getitem_last_is_last. cbn [and_then].
  split.
  - intros Hlt.
    assert (h0 = lo) as ->
      by (apply (sorted_head_least _ _ _ _ E Hlo); intros h Hh; apply Hrange, Hh).
    simpl bracket. unfold int_le_float, int_ge_float.
    unfold float_lt_int in Hlt.
    destruct (int_cmp_float lo virtual_hour) as [[| |]|]; try discriminate.
    rewrite Z.eqb_refl. unfold dict_getitem. rewrite Hclo. reflexivity.
  - intros Hgt.
    rewrite bracket_all_less.
    2:{ intros h Hh.
        assert (In h (dict_keys (keyframes self))) as Hk
          by (apply sorted_In; rewrite E; exact Hh).
        exact (proj1 (proj2 (int_cmp_float_mono h hi virtual_hour
                               (proj2 (Hrange h Hk)))) Hgt). }
    rewrite Z.eqb_refl.
    assert (last (h0 :: rest) h0 = hi) as ->.
    { assert (In (last (h0 :: rest) h0) (dict_keys (keyframes self))) as Hl.
      { apply sorted_In. rewrite E.
        apply (nth_error_In _ (List.length rest)), nth_error_last. }
      assert (hi <= last (h0 :: rest) h0).
      { apply sorted_last_greatest; [exact Hs |].
        rewrite <- E. apply sorted_In, Hhi. }
      pose proof (Hrange _ Hl). lia. }
    unfold dict_getitem. rewrite Hchi. reflexivity.
Qed.

(** The table is right: [float] sends [n - 255] to [small_float n], and
    [int] brings it back. *)
Lemma small_floats_table :
  forallb
    (fun n =>
       match float_of_int (Z.of_nat n - 255), int_of_float (small_float n) with
       | Ok f, Ok z => PrimFloat.Leibniz.eqb f (small_float n) && (z =? Z.of_nat n - 255)
       | _, _ => false
       end)
    (seq 0 511) = true.
Proof. vm_compute. reflexivity. Qed.

Lemma channel_floats_table :
  forallb
    (fun i =>
       PrimFloat.Leibniz.eqb (nth i channel_floats 0%float) (small_float (255 + i)) &&
       PrimFloat.Leibniz.eqb (nth i channel_floats_down 0%float) (small_float (510 - i)))
    (seq 0 256) = true.
Proof. vm_compute. reflexivity. Qed.

(** On the floats of two channel values [a] and [b], adding the difference
    once gives the float of [b], and adding it zero times that of [a]. *)
Lemma channel_ends_table :
  ends_rows channel_floats_down small_floats channel_floats = true.
Proof. vm_compute. reflexivity. Qed.

Lemma ends_row_spec fa lb : forall ld,
  ends_row fa ld lb = true ->
  forall j, (j < List.length lb)%nat ->
    (fa + nth j ld 0 * 0 = fa)%float /\
    (fa + nth j ld 0 * 1 = nth j lb 0)%float.
Proof.
  induction lb as [|fb lb IH]; intros ld H j Hj; [simpl in Hj; lia |].
  destruct ld as [|fd ld]; [discriminate |]. simpl in H.
  apply andb_true_iff in H as [H Hrest]. apply andb_true_iff in H as [H0 H1].
  apply FloatAxioms.Leibniz.eqb_spec in H0, H1.
  destruct j as [|j]; [split; assumption |].
  simpl in Hj. apply (IH ld Hrest j). lia.
Qed.

Lemma ends_rows_spec la lb : forall ld,
  ends_rows la ld lb = true ->
  forall i j, (i < List.length la)%nat -> (j < List.length lb)%nat ->
    (nth i la 0 + nth (i + j) ld 0 * 0 = nth i la 0)%float /\
    (nth i la 0 + nth (i + j) ld 0 * 1 = nth j lb 0)%float.
Proof.
  induction la as [|fa la IH]; intros ld H i j Hi Hj; [simpl in Hi; lia |].
  simpl in H. apply andb_true_iff in H as [Hrow Hrows].
  destruct i as [|i].
  - apply (ends_row_spec fa lb ld Hrow j Hj).
  - simpl in Hi.
    destruct (IH (tl ld) Hrows i j ltac:(lia) Hj) as (A & B).
    assert (nth (i + j) (tl ld) 0%float = nth (S i + j) ld 0%float) as E
      by (destruct ld; [destruct (i + j)%nat; reflexivity | reflexivity]).
    rewrite E in A, B. split; assumption.
Qed.

Lemma small_float_spec z :
  -255 <= z <= 255 ->
  float_of_int z = Ok (small_float (Z.to_nat (z + 255))) /\
  int_of_float (small_float (Z.to_nat (z + 255))) = Ok z.
Proof.
  intros Hz. pose proof small_floats_table as T.
  rewrite forallb_forall in T.
  specialize (T (Z.to_nat (z + 255)) ltac:(apply in_seq; lia)).
  replace (Z.of_nat (Z.to_nat (z + 255)) - 255) with z in T by lia.
  destruct (float_of_int z) as [f|]; [| discriminate].
  destruct (int_of_float (small_float (Z.to_nat (z + 255)))) as [y|]; [| discriminate].
  apply andb_true_iff in T as [Tf Tz].
  apply FloatAxioms.Leibniz.eqb_spec in Tf. apply Z.eqb_eq in Tz. subst. auto.
Qed.

Lemma lerp_channel a b :
  0 <= a <= 255 -> 0 <= b <= 255 ->
  _lerp a b 0%float = Ok a /\ _lerp a b 1%float = Ok b.
Proof.
  intros Ha Hb.
  destruct (small_float_spec a ltac:(lia)) as (Fa & Ia).
  destruct (small_float_spec b ltac:(lia)) as (_ & Ib).
  destruct (small_float_spec (b - a) ltac:(lia)) as (Fd & _).
  pose proof channel_floats_table as C. rewrite forallb_forall in C.
  pose proof (C (Z.to_nat (255 - a)) ltac:(apply in_seq; lia)) as Ca.
  pose proof (C (Z.to_nat b) ltac:(apply in_seq; lia)) as Cb.
  apply andb_true_iff in Ca as [_ Ca]. apply andb_true_iff in Cb as [Cb _].
  apply FloatAxioms.Leibniz.eqb_spec in Ca, Cb.
  replace (510 - Z.to_nat (255 - a))%nat with (Z.to_nat (a + 255)) in Ca by lia.
  replace (255 + Z.to_nat b)%nat with (Z.to_nat (b + 255)) in Cb by lia.
  destruct (ends_rows_spec _ _ _ channel_ends_table
              (Z.to_nat (255 - a)) (Z.to_nat b)) as (T0 & T1);
    [reflexivity || (change (List.length channel_floats_down) with 256%nat; lia)
    | reflexivity || (change (List.length channel_floats) with 256%nat; lia) |].
  rewrite Ca, Cb in *.
  replace (Z.to_nat (255 - a) + Z.to_nat b)%nat with (Z.to_nat (b - a + 255)) in * by lia.
  fold (small_float (Z.to_nat (b - a + 255))) in T0, T1.
  unfold _lerp, int_mul_float, int_add_float.
  rewrite Fd, Fa. cbn [and_then].
  rewrite T0, T1. auto.
Qed.

(** X8. On colors whose channels are in 0..255, interpolation is exact at
    both ends: [t = 0.0] gives the first color and [t = 1.0] the second,
    with no rounding drift in any channel. *)
Theorem lerp_color_ends (c1 c2 : color) :
  channel_color c1 -> channel_color c2 ->
  _lerp_color c1 c2 0%float = Ok c1 /\
  _lerp_color c1 c2 1%float = Ok c2.
Proof.
  destruct c1 as [[r1 g1] b1], c2 as [[r2 g2] b2].
  intros (Hr1 & Hg1 & Hb1) (Hr2 & Hg2 & Hb2).
  destruct (lerp_channel r1 r2 Hr1 Hr2) as (R0 & R1).
  destruct (lerp_channel g1 g2 Hg1 Hg2) as (G0 & G1).
  destruct (lerp_channel b1 b2 Hb1 Hb2) as (B0 & B1).
  unfold _lerp_color.
  rewrite R0, G0, B0, R1, G1, B1. auto.
Qed.

End SkyOutside.

Section ActionRuns.
Import Py Eff Client Daylight Controller.

Lemma prefix_split p s : String.prefix p s = true -> exists r, s = (p ++ r)%string.
Proof.
  revert s; induction p as [|a p IH]; intros s H.
  - exists s; reflexivity.
  - destruct s as [|b s]; [discriminate |]. simpl in H.
    destruct (ascii_dec a b) as [-> |]; [| discriminate].
    destruct (IH s H) as (r & ->). exists r; reflexivity.
Qed.

Lemma set_daylight_same c d : daylight c = Some d -> set_daylight (Some d) c = c.
Proof. destruct c; simpl; intros ->; reflexivity. Qed.

Lemma apply_on_run c w :
  apply_action "on" (c, w) =
    (Ok tt, (c, posted (Controller.client c) (JDict [("on", JBool true)]%string) w)).
Proof.
  unfold apply_action, bind at 1, on_self at 1, get; simpl.
  apply post_run.
Qed.

Lemma apply_off_plain_run c w :
  daylight c = None ->
  apply_action "off" (c, w) =
    (Ok tt, (c, posted (Controller.client c) (JDict [("on", JBool false)]%string) w)).
Proof.
  intros Hd. unfold apply_action, bind at 1, on_self at 1, get; simpl.
  rewrite Hd. unfold bind at 1, ret. apply post_run.
Qed.

Lemma apply_full_white_run c w :
  apply_action "full_white" (c, w) =
    match daylight c with
    | Some d =>
        (Ok tt, (set_daylight (Some (set_running false d)) c,
                 posted (Controller.client c) full_white_payload (stopped_world d w)))
    | None => (Ok tt, (c, posted (Controller.client c) full_white_payload w))
    end.
Proof.
  unfold apply_action, bind at 1, on_self at 1, get; simpl.
  destruct (daylight c) as [d|] eqn:Hd; unfold bind at 1.
  - rewrite (on_daylight_stop_run _ _ _ Hd), post_run. reflexivity.
  - unfold ret. apply post_run.
Qed.

Lemma apply_daylight_start_run c w :
  apply_action "daylight_start" (c, w) =
    match daylight c with
    | Some d =>
        if _running d then (Ok tt, (c, w))
        else (Ok tt, (set_daylight (Some (set_thread (Some (threads w)) (set_running true d))) c,
                      started_world d w))
    | None => (Ok tt, (c, emit (Log WARNING "Daylight cycle not configured" []) w))
    end.
Proof.
  unfold apply_action, bind at 1, on_self at 1, get; simpl.
  destruct (daylight c) as [d|] eqn:Hd; [| reflexivity].
  unfold on_daylight. rewrite Hd, start_run.
  destruct (_running d); [| reflexivity].
  rewrite (set_daylight_same _ _ Hd). reflexivity.
Qed.

Lemma apply_daylight_stop_run c w :
  apply_action "daylight_stop" (c, w) =
    match daylight c with
    | Some d => (Ok tt, (set_daylight (Some (set_running false d)) c, stopped_world d w))
    | None => (Ok tt, (c, emit (Log WARNING "Daylight cycle not configured" []) w))
    end.
Proof.
  unfold apply_action, bind at 1, on_self at 1, get; simpl.
  destruct (daylight c) as [d|] eqn:Hd; [| reflexivity].
  apply (on_daylight_stop_run _ _ _ Hd).
Qed.

Lemma apply_color_run s c w :
  apply_action ("color:" ++ s) (c, w) =
    let hex_color := lstrip "#" s in
    if len hex_color =? 6 then
      match parse_int 16 (slice hex_color 0 2),
            parse_int 16 (slice hex_color 2 4),
            parse_int 16 (slice hex_color 4 6) with
      | Some r, Some g, Some b =>
          (Ok tt, (c, posted (Controller.client c) (color_payload r g b) w))
      | _, _, _ => (Raise ValueError, (c, w))
      end
    else (Ok tt, (c, emit (Log WARNING "Invalid color format: %s" [AStr hex_color]) w)).
Proof.
  rewrite apply_color_branch.
  unfold bind at 1, on_self, get. cbv zeta.
  destruct (len (lstrip "#" s) =? 6); [| reflexivity].
  unfold bind, lift, int_of_str.
  destruct (parse_int 16 (slice (lstrip "#" s) 0 2)) as [r|]; [| reflexivity].
  destruct (parse_int 16 (slice (lstrip "#" s) 2 4)) as [g|]; [| reflexivity].
  destruct (parse_int 16 (slice (lstrip "#" s) 4 6)) as [b|]; [| reflexivity].
  change (post (color_payload r g b) (c, w) =
          (Ok tt, (c, posted (Controller.client c) (color_payload r g b) w))).
  apply post_run.
Qed.

Lemma apply_brightness_run s c w :
  apply_action ("brightness:" ++ s) (c, w) =
    match parse_int 10 s with
    | Some v =>
        (Ok tt, (c, posted (Controller.client c)
                      (JDict [("bri", JInt (Z.max 0 (Z.min 255 v)))]%string) w))
    | None =>
        (Ok tt, (c, emit (Log WARNING "Invalid brightness action: %s"
                            [AStr ("brightness:" ++ s)]) w))
    end.
Proof.
  rewrite apply_brightness_branch.
  unfold bind at 1, on_self, get, try_except, bind at 1, lift, int_of_str.
  destruct (parse_int 10 s) as [v|]; [| reflexivity].
  rewrite post_run. reflexivity.
Qed.

Lemma apply_preset_branch s :
  apply_action ("preset:" ++ s) =
    (self <- on_self get ;;
     try_except
       (preset_id <- lift (int_of_str s 10) ;;
        post (JDict [("ps", JInt preset_id)]%string))
       except_ValueError
       (fun _ => on_world (log WARNING "Invalid preset action: %s"
                             [AStr ("preset:" ++ s)]))).
Proof.
  unfold apply_action.
  rewrite (startswith_app "preset:" s). reflexivity.
Qed.

Lemma apply_preset_run s c w :
  apply_action ("preset:" ++ s) (c, w) =
    match parse_int 10 s with
    | Some v =>
        (Ok tt, (c, posted (Controller.client c) (JDict [("ps", JInt v)]%string) w))
    | None =>
        (Ok tt, (c, emit (Log WARNING "Invalid preset action: %s"
                            [AStr ("preset:" ++ s)]) w))
    end.
Proof.
  rewrite apply_preset_branch.
  unfold bind at 1, on_self, get, try_except, bind at 1, lift, int_of_str.
  destruct (parse_int 10 s) as [v|]; [| reflexivity].
  rewrite post_run. reflexivity.
Qed.

Lemma apply_unhandled_run action c w :
  known_action action = false ->
  apply_action action (c, w) =
    (Ok tt, (c, emit (Log WARNING "Unhandled WLED action: %s" [AStr action]) w)).
Proof.
  unfold known_action. intros H.
  repeat (apply orb_false_iff in H as [H ?]).
  unfold apply_action, bind at 1, on_self at 1, get. cbn [fst snd].
  repeat match goal with
         | E : _ = false |- _ => rewrite E; clear E
         end.
  reflexivity.
Qed.

(** Every action string falls in one of the ten branches. *)
Lemma action_cases action :
  action = "on"%string \/ action = "off"%string \/ action = "full_white"%string \/
  action = "daylight_start"%string \/ action = "daylight_stop"%string \/
  (exists s, action = ("color:" ++ s)%string) \/
  (exists s, action = ("brightness:" ++ s)%string) \/
  (exists s, action = ("preset:" ++ s)%string) \/
  action = "cycle"%string \/ known_action action = false.
Proof.
  destruct (action =? "on")%string eqn:E1; [apply String.eqb_eq in E1; auto |].
  destruct (action =? "off")%string eqn:E2; [apply String.eqb_eq in E2; auto |].
  destruct (action =? "full_white")%string eqn:E3; [apply String.eqb_eq in E3; auto 6 |].
  destruct (action =? "daylight_start")%string eqn:E4; [apply String.eqb_eq in E4; auto 6 |].
  destruct (action =? "daylight_stop")%string eqn:E5; [apply String.eqb_eq in E5; auto 7 |].
  destruct (startswith action "color:") eqn:E6;
    [apply prefix_split in E6; do 5 right; left; exact E6 |].
  destruct (startswith action "brightness:") eqn:E7;
    [apply prefix_split in E7; do 6 right; left; exact E7 |].
  destruct (startswith action "preset:") eqn:E8;
    [apply prefix_split in E8; do 7 right; left; exact E8 |].
  destruct (action =? "cycle")%string eqn:E9;
    [apply String.eqb_eq in E9; do 8 right; left; exact E9 |].
  do 9 right. unfold known_action.
  rewrite E1, E2, E3, E4, E5, E6, E7, E8, E9. reflexivity.
Qed.

End ActionRuns.

Section ActionFactsAll.
Import Py Eff Client Daylight Controller.

Lemma same_cycle_refl d : same_cycle d d.
Proof. repeat split. Qed.

Lemma same_cycle_stopped d : same_cycle d (set_running false d).
Proof. repeat split. Qed.

Lemma same_cycle_started d t : same_cycle d (set_thread t (set_running true d)).
Proof. repeat split. Qed.

Lemma same_config_refl c : same_config c c.
Proof.
  repeat split. destruct (daylight c); [apply same_cycle_refl | exact I].
Qed.

Lemma same_config_index c i : same_config c (set_pattern_index i c).
Proof.
  repeat split. simpl. destruct (daylight c); [apply same_cycle_refl | exact I].
Qed.

Lemma same_config_daylight c d d' :
  daylight c = Some d -> same_cycle d d' -> same_config c (set_daylight (Some d') c).
Proof. intros Hd Hs. repeat split; simpl. rewrite Hd. exact Hs. Qed.

Lemma posts_emit_log lvl fmt args w :
  posts (trace (emit (Log lvl fmt args) w)) = posts (trace w).
Proof. unfold emit; simpl. rewrite posts_app; simpl. apply app_nil_r. Qed.

Lemma sockets_stopped_world d w : sockets (stopped_world d w) = sockets w.
Proof. unfold stopped_world; destruct (_thread d); reflexivity. Qed.

Ltac posts_none :=
  exists []; rewrite app_nil_r;
  split; [rewrite ?posts_emit_log, ?posts_stopped_world; reflexivity |];
  split; [simpl; lia | intros; reflexivity].

Ltac posts_one p :=
  exists [p];
  split; [rewrite ?posts_posted, ?posts_emit_log, ?posts_posted, ?posts_started_world,
            ?posts_stopped_world; reflexivity |];
  split; [simpl; lia | intros ? ?; discriminate].

Lemma apply_action_facts action c w :
  exists r c' w',
    apply_action action (c, w) = (r, (c', w')) /\ action_facts action c w r c' w'.
Proof.
  unfold action_facts.
  destruct (action_cases action)
    as [-> | [-> | [-> | [-> | [-> | [[s ->] | [[s ->] | [[s ->] | [-> | Hun]]]]]]]]].
  - (* on *)
    rewrite apply_on_run. do 3 eexists; split; [reflexivity |].
    split; [apply same_config_refl |]. split; [reflexivity |].
    split; [posts_one (JDict [("on", JBool true)]%string) |].
    split; [intros ? ?; discriminate | reflexivity].
  - (* off *)
    destruct (daylight c) as [d|] eqn:Hd.
    + rewrite (apply_off_run _ _ _ Hd). do 3 eexists; split; [reflexivity |].
      split; [apply (same_config_daylight _ _ _ Hd), same_cycle_stopped |].
      split; [apply sockets_stopped_world |].
      split; [posts_one (JDict [("on", JBool false)]%string) |].
      split; [intros ? ?; discriminate | intros ?; discriminate].
    + rewrite (apply_off_plain_run _ _ Hd). do 3 eexists; split; [reflexivity |].
      split; [apply same_config_refl |]. split; [reflexivity |].
      split; [posts_one (JDict [("on", JBool false)]%string) |].
      split; [intros ? ?; discriminate | intros ?; discriminate].
  - (* full_white *)
    rewrite apply_full_white_run. destruct (daylight c) as [d|] eqn:Hd.
    + do 3 eexists; split; [reflexivity |].
      split; [apply (same_config_daylight _ _ _ Hd), same_cycle_stopped |].
      split; [apply sockets_stopped_world |].
      split; [posts_one full_white_payload |].
      split; [intros ? ?; discriminate | intros ?; discriminate].
    + do 3 eexists; split; [reflexivity |].
      split; [apply same_config_refl |]. split; [reflexivity |].
      split; [posts_one full_white_payload |].
      split; [intros ? ?; discriminate | intros ?; discriminate].
  - (* daylight_start *)
    rewrite apply_daylight_start_run. destruct (daylight c) as [d|] eqn:Hd.
    + destruct (_running d).
      * do 3 eexists; split; [reflexivity |].
        split; [apply same_config_refl |]. split; [reflexivity |].
        split; [posts_none |].
        split; [intros ? ?; discriminate | intros ?; discriminate].
      * do 3 eexists; split; [reflexivity |].
        split; [apply (same_config_daylight _ _ _ Hd), same_cycle_started |].
        split; [reflexivity |].
        split; [posts_one (baseline (led_count d)) |].
        split; [intros ? ?; discriminate | intros ?; discriminate].
    + do 3 eexists; split; [reflexivity |].
      split; [apply same_config_refl |]. split; [reflexivity |].
      split; [posts_none |].
      split; [intros ? ?; discriminate | intros ?; discriminate].
  - (* daylight_stop *)
    rewrite apply_daylight_stop_run. destruct (daylight c) as [d|] eqn:Hd.
    + do 3 eexists; split; [reflexivity |].
      split; [apply (same_config_daylight _ _ _ Hd), same_cycle_stopped |].
      split; [apply sockets_stopped_world |].
      split; [posts_none |].
      split; [intros ? ?; discriminate | intros ?; discriminate].
    + do 3 eexists; split; [reflexivity |].
      split; [apply same_config_refl |]. split; [reflexivity |].
      split; [posts_none |].
      split; [intros ? ?; discriminate | intros ?; discriminate].
  - (* color *)
    rewrite apply_color_run. cbv zeta.
    destruct (len (lstrip "#" s) =? 6).
    + destruct (parse_int 16 (slice (lstrip "#" s) 0 2)) as [r|];
        [destruct (parse_int 16 (slice (lstrip "#" s) 2 4)) as [g|];
         [destruct (parse_int 16 (slice (lstrip "#" s) 4 6)) as [b|] | ] | ].
      * do 3 eexists; split; [reflexivity |].
        split; [apply same_config_refl |]. split; [reflexivity |].
        split; [posts_one (color_payload r g b) |].
        split; [intros ? ?; discriminate | reflexivity].
      * do 3 eexists; split; [reflexivity |].
        split; [apply same_config_refl |]. split; [reflexivity |].
        split; [posts_none |].
        split; [| reflexivity].
        intros e He; injection He as <-.
        repeat split. apply (startswith_app "color:" s).
      * do 3 eexists; split; [reflexivity |].
        split; [apply same_config_refl |]. split; [reflexivity |].
        split; [posts_none |].
        split; [| reflexivity].
        intros e He; injection He as <-.
        repeat split. apply (startswith_app "color:" s).
      * do 3 eexists; split; [reflexivity |].
        split; [apply same_config_refl |]. split; [reflexivity |].
        split; [posts_none |].
        split; [| reflexivity].
        intros e He; injection He as <-.
        repeat split. apply (startswith_app "color:" s).
    + do 3 eexists; split; [reflexivity |].
      split; [apply same_config_refl |]. split; [reflexivity |].
      split; [posts_none |].
      split; [intros ? ?; discriminate | reflexivity].
  - (* brightness *)
    rewrite apply_brightness_run. destruct (parse_int 10 s) as [v|].
    + do 3 eexists; split; [reflexivity |].
      split; [apply same_config_refl |]. split; [reflexivity |].
      split; [posts_one (JDict [("bri", JInt (Z.max 0 (Z.min 255 v)))]%string) |].
      split; [intros ? ?; discriminate | reflexivity].
    + do 3 eexists; split; [reflexivity |].
      split; [apply same_config_refl |]. split; [reflexivity |].
      split; [posts_none |].
      split; [intros ? ?; discriminate | reflexivity].
  - (* preset *)
    rewrite apply_preset_run. destruct (parse_int 10 s) as [v|].
    + do 3 eexists; split; [reflexivity |].
      split; [apply same_config_refl |]. split; [reflexivity |].
      split; [posts_one (JDict [("ps", JInt v)]%string) |].
      split; [intros ? ?; discriminate | reflexivity].
    + do 3 eexists; split; [reflexivity |].
      split; [apply same_config_refl |]. split; [reflexivity |].
      split; [posts_none |].
      split; [intros ? ?; discriminate | reflexivity].
  - (* cycle *)
    destruct (pattern_presets c) as [|x l] eqn:Hp.
    + rewrite (apply_cycle_empty _ _ Hp). do 3 eexists; split; [reflexivity |].
      split; [apply same_config_refl |]. split; [reflexivity |].
      split; [posts_none |].
      split; [intros ? ?; discriminate | reflexivity].
    + assert (pattern_presets c <> []) as Hne by (rewrite Hp; discriminate).
      destruct (apply_cycle_run c w Hne) as (p & _ & Hrun).
      rewrite Hrun. do 3 eexists; split; [reflexivity |].
      split; [apply same_config_index |]. split; [reflexivity |].
      split; [posts_one (JDict [("ps", JInt p)]%string) |].
      split; [intros ? ?; discriminate | reflexivity].
  - (* anything else *)
    rewrite (apply_unhandled_run _ _ _ Hun). do 3 eexists; split; [reflexivity |].
    split; [apply same_config_refl |]. split; [reflexivity |].
    split; [posts_none |].
    split; [intros ? ?; discriminate | reflexivity].
Qed.

End ActionFactsAll.

Section ActionExtras.
Import Py Eff Client Daylight Controller.

Lemma controller_eq c c' :
  same_config c c' -> pattern_index c' = pattern_index c ->
  daylight c' = daylight c -> c' = c.
Proof.
  intros (Hm & Hc & Hp & _) Hi Hd.
  destruct c, c'; simpl in *; subst; reflexivity.
Qed.

(** X9. [apply_action] raises nothing but [ValueError], and that only
    for a color action; when it raises, the controller and the world are
    exactly as before the call (nothing posted, nothing logged). *)
Theorem apply_action_raises_only_for_color
  (action : string) (c : WLEDController) (w : world)
  (e : exn) (c' : WLEDController) (w' : world) :
  apply_action action (c, w) = (Raise e, (c', w')) ->
  e = ValueError /\ startswith action "color:" = true /\ c' = c /\ w' = w.
Proof.
  intros H.
  destruct (apply_action_facts action c w) as (r & c1 & w1 & Hrun & _ & _ & _ & Hr & _).
  rewrite H in Hrun. injection Hrun as <- <- <-.
  apply (Hr e eq_refl).
Qed.

(** X10. Whatever the action and however it ends, [apply_action] makes
    at most one post, makes none when it raises, and holds no socket open
    that it did not find open. *)
Theorem apply_action_at_most_one_post
  (action : string) (c : WLEDController) (w : world)
  (r : result unit) (c' : WLEDController) (w' : world) :
  apply_action action (c, w) = (r, (c', w')) ->
  (exists extra,
     posts (trace w') = posts (trace w) ++ extra /\
     (List.length extra <= 1)%nat /\
     (forall e, r = Raise e -> extra = [])) /\
  sockets w' = sockets w.
Proof.
  intros H.
  destruct (apply_action_facts action c w) as (r1 & c1 & w1 & Hrun & _ & Hs & Hp & _).
  rewrite H in Hrun. injection Hrun as <- <- <-. auto.
Qed.

Lemma same_config_settings c c' : same_config c c' -> same_settings c c'.
Proof.
  intros (Hm & Hc & Hp & Hd). repeat split; try assumption.
  destruct (daylight c) as [d|], (daylight c') as [d'|]; try exact Hd.
  destruct Hd as (H1 & H2 & H3 & H4 & H5 & H6 & H7 & H8 & _).
  repeat split; assumption.
Qed.

(** X11. No action changes the settings: the mapping, the client and the
    preset list stay as they are, a daylight cycle is neither created nor
    dropped, and the parameters it was built with (client, cycle duration,
    strip length, moon segment, lightning cadence, keyframes, update
    interval) are left alone. *)
Theorem apply_action_keeps_configuration
  (action : string) (c : WLEDController) (w : world)
  (r : result unit) (c' : WLEDController) (w' : world) :
  apply_action action (c, w) = (r, (c', w')) ->
  same_settings c c'.
Proof.
  intros H.
  destruct (apply_action_facts action c w) as (r1 & c1 & w1 & Hrun & Hc & _).
  rewrite H in Hrun. injection Hrun as <- <- <-.
  apply same_config_settings, Hc.
Qed.

(** X12. Only [off], [full_white], [daylight_start] and [daylight_stop]
    touch the daylight cycle: every other action leaves it as it is, so
    [on], a color, a brightness or a preset does not stop a running cycle;
    an action that is not [cycle] either leaves the whole controller
    unchanged. *)
Theorem other_actions_leave_controller
  (action : string) (c : WLEDController) (w : world)
  (r : result unit) (c' : WLEDController) (w' : world) :
  touches_daylight action = false ->
  apply_action action (c, w) = (r, (c', w')) ->
  daylight c' = daylight c /\
  ((action =? "cycle")%string = false -> c' = c).
Proof.
  intros Ht H.
  destruct (apply_action_facts action c w) as (r1 & c1 & w1 & Hrun & Hc & _ & _ & _ & Hd).
  rewrite H in Hrun. injection Hrun as <- <- <-.
  split; [exact (Hd Ht) |].
  intros Hcy. apply controller_eq; auto.
  exact (other_actions_keep_index action Hcy c w r c' w' H).
Qed.

End ActionExtras.

Section CycleRounds.
Import Py Eff Client Daylight Controller.

Lemma set_pattern_index_same c : set_pattern_index (pattern_index c) c = c.
Proof. destruct c; reflexivity. Qed.

Lemma set_pattern_index_twice i j c :
  set_pattern_index j (set_pattern_index i c) = set_pattern_index j c.
Proof. reflexivity. Qed.

Lemma repeat_cycle_run (k : nat) : forall c w,
  pattern_presets c <> [] ->
  let n := Z.of_nat (List.length (pattern_presets c)) in
  0 <= pattern_index c < n ->
  exists w',
    repeat_action k "cycle" (c, w) =
      (Ok tt, (set_pattern_index ((pattern_index c + Z.of_nat k) mod n) c, w')) /\
    posts (trace w') =
      posts (trace w) ++
      map (fun j => preset_payload (pattern_presets c)
                      ((pattern_index c + Z.of_nat j) mod n))
          (seq 1 k).
Proof.
  induction k as [|k IH]; intros c w Hne n Hi.
  - exists w. simpl. rewrite Z.add_0_r, Z.mod_small by exact Hi.
    rewrite set_pattern_index_same, app_nil_r. split; reflexivity.
  - destruct (apply_cycle_run c w Hne) as (p & Hnth & Hrun). fold n in Hnth, Hrun.
    set (i1 := (pattern_index c + 1) mod n) in *.
    set (c1 := set_pattern_index i1 c) in *.
    assert (0 < n) as Hn by lia.
    assert (0 <= pattern_index c1 < Z.of_nat (List.length (pattern_presets c1))) as Hi1
      by (apply Z.mod_pos_bound; exact Hn).
    destruct (IH c1 (emit (Log INFO "WLED cycled to preset %s" [AInt p])
                       (posted (Controller.client c) (JDict [("ps", JInt p)]%string) w))
                Hne Hi1) as (w' & Hrep & Hposts).
    exists w'. split.
    + cbn [repeat_action]. unfold bind at 1. rewrite Hrun. rewrite Hrep.
      unfold c1. cbn [pattern_index pattern_presets set_pattern_index]. fold n.
      f_equal. f_equal. unfold set_pattern_index; cbn. f_equal.
      unfold i1. rewrite Zplus_mod_idemp_l. f_equal. lia.
    + rewrite Hposts, posts_emit_log, posts_posted.
      cbn [pattern_index pattern_presets c1 set_pattern_index]. fold n.
      rewrite <- app_assoc. f_equal.
      change (seq 1 (S k)) with (1%nat :: seq 2 k).
      cbn [map app]. f_equal; [| rewrite <- (seq_shift k 1), map_map].
      * unfold preset_payload. change (Z.of_nat 1) with 1. fold i1.
        rewrite (nth_error_nth _ _ 0 Hnth). reflexivity.
      * apply map_ext. intros j. f_equal. unfold i1.
        rewrite Zplus_mod_idemp_l. f_equal. lia.
Qed.

(** X13. With a cursor inside a non-empty preset list of length [n],
    [k] cycle actions in a row move the cursor to [(i + k) mod n] and make
    [k] posts, the [j]-th of them the preset at [(i + j) mod n]: the list
    is walked in order starting from the entry after the cursor, and [n]
    actions bring the controller back to where it was. *)
Theorem cycle_rounds (k : nat) (c : WLEDController) (w : world) :
  pattern_presets c <> [] ->
  let n := Z.of_nat (List.length (pattern_presets c)) in
  0 <= pattern_index c < n ->
  (exists w',
     repeat_action k "cycle" (c, w) =
       (Ok tt, (set_pattern_index ((pattern_index c + Z.of_nat k) mod n) c, w')) /\
     posts (trace w') =
       posts (trace w) ++
       map (fun j => preset_payload (pattern_presets c)
                       ((pattern_index c + Z.of_nat j) mod n))
           (seq 1 k)) /\
  (exists w',
     repeat_action (List.length (pattern_presets c)) "cycle" (c, w) = (Ok tt, (c, w'))).
Proof.
  intros Hne n Hi. split; [apply repeat_cycle_run; assumption |].
  destruct (repeat_cycle_run (List.length (pattern_presets c)) c w Hne Hi) as (w' & Hrun & _).
  exists w'. rewrite Hrun. fold n.
  replace ((pattern_index c + n) mod n) with (pattern_index c).
  - rewrite set_pattern_index_same. reflexivity.
  - rewrite <- Zplus_mod_idemp_r, Z.mod_same, Z.add_0_r, Z.mod_small by lia. reflexivity.
Qed.

End CycleRounds.

Section MoreActions.
Import Py Eff Client Daylight Controller.

(** X14. A preset action whose argument parses as the integer [v] posts
    exactly [{ps: v}], with no clamping or range check (negative ids
    included); an argument that is no numeral gives one warning and no
    post. *)
Theorem preset_posted_unclamped (s : string) (c : WLEDController) (w : world) :
  (forall v, parse_int 10 s = Some v ->
     exists w',
       apply_action ("preset:" ++ s) (c, w) = (Ok tt, (c, w')) /\
       posts (trace w') = posts (trace w) ++ [JDict [("ps", JInt v)]%string]) /\
  (parse_int 10 s = None ->
     exists w',
       apply_action ("preset:" ++ s) (c, w) = (Ok tt, (c, w')) /\
       posts (trace w') = posts (trace w) /\
       logs (trace w') =
         logs (trace w) ++
         [Log WARNING "Invalid preset action: %s" [AStr ("preset:" ++ s)]]).
Proof.
  split.
  - intros v Hv. rewrite apply_preset_run, Hv.
    eexists; split; [reflexivity | apply posts_posted].
  - intros Hv. rewrite apply_preset_run, Hv.
    eexists; split; [reflexivity |].
    split; [apply posts_emit_log |].
    unfold emit; simpl. rewrite logs_app. reflexivity.
Qed.

(** X15. [full_white] on a controller with a daylight cycle stops the
    cycle before it posts, as [off] does: the single post, full brightness
    with segment 0 in white, is made from the world [stop] leaves. *)
Theorem full_white_stops_before_post (c : WLEDController) (d : DaylightCycle) (w : world) :
  daylight c = Some d ->
  exists d1 w1 ok w2,
    stop (d, w) = (Ok tt, (d1, w1)) /\
    _running d1 = false /\
    posts (trace w1) = posts (trace w) /\
    post_state (Controller.client c) full_white_payload w1 = (Ok ok, w2) /\
    apply_action "full_white" (c, w) = (Ok tt, (set_daylight (Some d1) c, w2)) /\
    posts (trace w2) = posts (trace w) ++ [full_white_payload].
Proof.
  intros Hd.
  exists (set_running false d), (stopped_world d w). eexists; eexists.
  split; [apply stop_run |].
  split; [reflexivity |].
  split; [apply posts_stopped_world |].
  split; [apply post_state_run |].
  split; [rewrite apply_full_white_run, Hd; reflexivity |].
  rewrite posts_posted, posts_stopped_world. reflexivity.
Qed.

(** X16. A controller built without the daylight flag is built without
    any effect on the world and has no daylight cycle; on it,
    [daylight_start] and [daylight_stop] write one warning each and do
    nothing else. *)
Theorem no_daylight_without_flag
  (mapping : list (Z * Z * string)) (host : string) (port : Z)
  (pattern_presets : option (list Z)) (timeout : float)
  (cycle_duration_sec led_count moon_start moon_length lightning_every_n_cycles : Z)
  (w w1 : world) :
  exists c,
    WLEDController_init mapping host port pattern_presets timeout false
      cycle_duration_sec led_count moon_start moon_length
      lightning_every_n_cycles w = (Ok c, w) /\
    daylight c = None /\
    apply_action "daylight_start" (c, w1) =
      (Ok tt, (c, emit (Log WARNING "Daylight cycle not configured" []) w1)) /\
    apply_action "daylight_stop" (c, w1) =
      (Ok tt, (c, emit (Log WARNING "Daylight cycle not configured" []) w1)).
Proof.
  eexists. split; [reflexivity |]. split; [reflexivity |].
  split.
  - rewrite apply_daylight_start_run. reflexivity.
  - rewrite apply_daylight_stop_run. reflexivity.
Qed.

(** X17. An action that is none of the five keywords, not [cycle], and
    starts with none of the three prefixes gives one warning and nothing
    else.  The tests are exact: [ON], [brightness] without its colon, an
    action with a leading blank and [Color:...] are all unknown. *)
Theorem unknown_action_only_warns (action : string) (c : WLEDController) (w : world) :
  known_action action = false ->
  apply_action action (c, w) =
    (Ok tt, (c, emit (Log WARNING "Unhandled WLED action: %s" [AStr action]) w)) /\
  known_action "ON" = false /\
  known_action "brightness" = false /\
  known_action " off" = false /\
  known_action "Color:#ff0000" = false.
Proof.
  intros H. split; [apply apply_unhandled_run, H |].
  repeat split; reflexivity.
Qed.

End MoreActions.

Section PacketFacts.
Import Py Eff Client Daylight Controller.

Lemma handle_packet_run packet cmd_type c w :
  handle_packet packet cmd_type (c, w) =
    match Frame.parse_tmcc_switch_or_accessory packet cmd_type with
    | None => (Ok false, (c, w))
    | Some parsed =>
        match resolve c packet cmd_type with
        | None => (Ok false, (c, emit (ignored_log parsed) w))
        | Some action =>
            let '(r, st) := apply_action action (c, emit (action_log action parsed) w) in
            (match r with
             | Ok _ => Ok true
             | Raise e => Raise e
             end, st)
        end
    end.
Proof.
  unfold handle_packet, resolve.
  destruct (Frame.parse_tmcc_switch_or_accessory packet cmd_type) as [parsed|];
    [| reflexivity].
  unfold bind at 1, on_self at 1, get. cbn [fst snd].
  destruct (mapping_get (mapping c) (Frame.address parsed, Frame.data_field parsed))
    as [[|a s]|]; try reflexivity.
  unfold bind at 1, on_world at 1, log, modify.
  unfold bind at 1.
  fold (action_log (String a s) parsed).
  destruct (apply_action (String a s) (c, emit (action_log (String a s) parsed) w))
    as [[[]|e] st]; reflexivity.
Qed.

End PacketFacts.

Section PacketExtras.
Import Py Eff Client Daylight Controller.

(** X18. [handle_packet] returns [False] exactly when the packet
    resolves to no action (rejected by the parser, no mapping entry, or an
    empty action string); it then leaves the controller unchanged and
    makes no post, and for a rejected packet it leaves no trace at all, not
    even a log record. *)
Theorem handle_packet_false_iff_unresolved
  (packet : list Z) (cmd_type : option Z) (c : WLEDController) (w : world)
  (r : result bool) (c' : WLEDController) (w' : world) :
  handle_packet packet cmd_type (c, w) = (r, (c', w')) ->
  (r = Ok false <-> resolve c packet cmd_type = None) /\
  (r = Ok false ->
   c' = c /\ posts (trace w') = posts (trace w) /\ sockets w' = sockets w) /\
  (Frame.parse_tmcc_switch_or_accessory packet cmd_type = None -> w' = w).
Proof.
  rewrite handle_packet_run. unfold resolve.
  destruct (Frame.parse_tmcc_switch_or_accessory packet cmd_type) as [parsed|].
  - destruct (mapping_get (mapping c) (Frame.address parsed, Frame.data_field parsed))
      as [[|a s]|].
    + intros H; injection H as <- <- <-.
      split; [tauto |]. split; [| discriminate].
      intros _. split; [reflexivity |]. split; [apply posts_emit_log | reflexivity].
    + destruct (apply_action (String a s) (c, emit (action_log (String a s) parsed) w))
        as [[[]|e] [c1 w1]] eqn:E; intros H; injection H as <- <- <-;
        (split; [split; discriminate |]); (split; discriminate).
    + intros H; injection H as <- <- <-.
      split; [tauto |]. split; [| discriminate].
      intros _. split; [reflexivity |]. split; [apply posts_emit_log | reflexivity].
  - intros H; injection H as <- <- <-.
    split; [tauto |]. split; [| reflexivity].
    intros _. auto.
Qed.


(** X20. Dispatch looks at the address and the data field only: two
    accepted frames with the same address and data resolve to the same
    action, whatever their command field and whether they are switch or
    accessory frames, and when that action exists [handle_packet] runs
    identically on both. *)
Theorem handle_packet_ignores_command_field
  (packet packet' : list Z) (cmd_type cmd_type' : option Z)
  (p p' : Frame.Parsed) (c : WLEDController) (w : world) :
  Frame.parse_tmcc_switch_or_accessory packet cmd_type = Some p ->
  Frame.parse_tmcc_switch_or_accessory packet' cmd_type' = Some p' ->
  Frame.address p = Frame.address p' ->
  Frame.data_field p = Frame.data_field p' ->
  resolve c packet cmd_type = resolve c packet' cmd_type' /\
  (resolve c packet cmd_type <> None ->
   handle_packet packet cmd_type (c, w) = handle_packet packet' cmd_type' (c, w)).
Proof.
  intros Hp Hp' Ha Hd.
  assert (resolve c packet cmd_type = resolve c packet' cmd_type') as Hres
    by (unfold resolve; rewrite Hp, Hp', Ha, Hd; reflexivity).
  split; [exact Hres |].
  intros Hsome. rewrite !handle_packet_run, Hp, Hp', <- Hres.
  destruct (resolve c packet cmd_type) as [action|]; [| congruence].
  unfold action_log. rewrite Ha, Hd. reflexivity.
Qed.

(** X21. A mapping entry can fire only if its address is in 0..127 and
    its data in 0..31: whatever the packet, the action it resolves to is
    bound to a key in that range. *)
Theorem only_keys_in_range_fire
  (packet : list Z) (cmd_type : option Z) (c : WLEDController) (action : string) :
  resolve c packet cmd_type = Some action ->
  exists address data_field,
    0 <= address <= 127 /\ 0 <= data_field <= 31 /\
    mapping_get (mapping c) (address, data_field) = Some action.
Proof.
  unfold resolve.
  destruct (Frame.parse_tmcc_switch_or_accessory packet cmd_type) as [parsed|] eqn:E;
    [| discriminate].
  apply parse_inv in E as (p1 & p2 & _ & _ & ->).
  cbn [Frame.address Frame.data_field].
  intros H.
  exists (Z.lor (Z.shiftl (Z.land p1 0x3F) 1) (Z.shiftr (Z.land p2 0x80) 7)),
         (Z.land p2 0x1F).
  split; [apply address_range |].
  split.
  { pose proof (land_low_bits p2 5 ltac:(lia)) as Hb.
    change (Z.ones 5) with 0x1F in Hb. change (2 ^ 5) with 32 in Hb. lia. }
  destruct (mapping_get (mapping c) _) as [[|a s]|]; [discriminate | exact H | discriminate].
Qed.

End PacketExtras.

Section RequestFacts.
Import Py Eff Client.

Lemma requests_app t1 t2 : requests (t1 ++ t2) = requests t1 ++ requests t2.
Proof.
  induction t1 as [|e t1 IH]; simpl; [reflexivity |].
  destruct e; simpl; rewrite IH; reflexivity.
Qed.

(** X22. One call of [post_state] starts exactly one exchange and puts at
    most one request on the wire, never a second try: a [POST] to
    [/json/state] whose body is the serialised payload and whose
    [Content-Length] is the length of that body, or no request at all when
    the connection object, the connection or the sending fails. *)
Theorem post_state_one_request (self : WLEDClient) (payload : json) (w : world) :
  exists ok w',
    post_state self payload w = (Ok ok, w') /\
    calls w' = S (calls w) /\
    requests (trace w') =
      requests (trace w) ++
      match outcome (net w (calls w)) with
      | InitFails _ | ConnectFails _ | SendFails _ => []
      | _ =>
          [HttpRequest (host self) (port self) "POST" "/json/state" (json_dumps payload)
             [("Content-Type", "application/json");
              ("Content-Length", str_of_int (len (json_dumps payload)))]%string]
      end.
Proof.
  rewrite post_state_run. eexists; eexists; split; [reflexivity |].
  split; [reflexivity |].
  unfold posted, wire; cbn [trace]. rewrite requests_app. f_equal.
  destruct (outcome (net w (calls w))) as [e|e|e|e|s r e|s r]; try reflexivity.
  destruct ((s <? 200) || (300 <=? s)); reflexivity.
Qed.

End RequestFacts.

(** * The further properties at sample inputs *)

Section MoreWitnesses.
Import Py Eff Client Daylight Controller Sample.

Lemma fields_determine_bytes_witness :
  0xD9 = 64 * 3 + 50 / 2 /\ 0x01 = 128 * (50 mod 2) + 32 * 0 + 1.
Proof.
  refine (fields_determine_bytes 0xD9 0x01 (Frame.mkParsed 50 0 1 3) _ _ _);
    [lia | lia | reflexivity].
Defined.

Lemma night_and_lightning_window_witness :
  (float_ge_int 20.5%float 20 = true /\ float_lt_int 20.5%float 21 = true) /\
  (float_ge_int 4.5%float 4 = true /\ float_lt_int 4.5%float 5 = true) /\
  (_is_night cycle0 nan = false /\ _is_lightning_window cycle0 nan = false).
Proof.
  split; [| split].
  - refine (proj1 (night_and_lightning_window cycle0 20.5%float) _ _);
      vm_compute; reflexivity.
  - refine (proj1 (proj2 (night_and_lightning_window cycle0 4.5%float)) _ _);
      vm_compute; reflexivity.
  - refine (proj2 (proj2 (night_and_lightning_window cycle0 nan)) _).
    vm_compute; reflexivity.
Defined.

Lemma sky_color_outside_table_witness :
  _get_sky_color cycle0 (-1)%float = Ok (40, 40, 100) /\
  _get_sky_color cycle0 infinity = Ok (40, 40, 100).
Proof.
  assert (forall h, In h (dict_keys (keyframes cycle0)) -> 0 <= h <= 24) as Hr
    by (simpl; intuition lia).
  split.
  - refine (proj1 (sky_color_outside_table cycle0 (-1)%float 0 24
                     (40, 40, 100) (40, 40, 100) _ _ Hr) _);
      vm_compute; reflexivity.
  - refine (proj2 (sky_color_outside_table cycle0 infinity 0 24
                     (40, 40, 100) (40, 40, 100) _ _ Hr) _);
      vm_compute; reflexivity.
Defined.

Lemma lerp_color_ends_witness :
  _lerp_color (50, 50, 120) (255, 150, 80) 0%float = Ok (50, 50, 120) /\
  _lerp_color (50, 50, 120) (255, 150, 80) 1%float = Ok (255, 150, 80).
Proof.
  refine (lerp_color_ends (50, 50, 120) (255, 150, 80) _ _); simpl; lia.
Defined.

Lemma apply_action_raises_only_for_color_witness :
  ValueError = ValueError /\ startswith "color:12345g" "color:" = true /\
  harness = harness /\ w0 = w0.
Proof.
  refine (apply_action_raises_only_for_color "color:12345g" harness w0
            ValueError harness w0 _).
  reflexivity.
Defined.

Lemma apply_action_at_most_one_post_witness :
  (exists extra,
     posts (trace (snd (snd (apply_action "on" (harness, w0))))) =
       posts (trace w0) ++ extra /\
     (List.length extra <= 1)%nat /\
     (forall e, Ok tt = Raise e -> extra = [])) /\
  sockets (snd (snd (apply_action "on" (harness, w0)))) = sockets w0.
Proof.
  refine (apply_action_at_most_one_post "on" harness w0 (Ok tt)
            (fst (snd (apply_action "on" (harness, w0))))
            (snd (snd (apply_action "on" (harness, w0)))) _).
  reflexivity.
Defined.

Lemma apply_action_keeps_configuration_witness :
  same_settings with_daylight (fst (snd (apply_action "off" (with_daylight, w0)))).
Proof.
  refine (apply_action_keeps_configuration "off" with_daylight w0 (Ok tt)
            (fst (snd (apply_action "off" (with_daylight, w0))))
            (snd (snd (apply_action "off" (with_daylight, w0)))) _).
  reflexivity.
Defined.

Lemma other_actions_leave_controller_witness :
  daylight (fst (snd (apply_action "on" (with_daylight, w0)))) = daylight with_daylight /\
  ((("on" =? "cycle")%string = false) ->
   fst (snd (apply_action "on" (with_daylight, w0))) = with_daylight).
Proof.
  refine (other_actions_leave_controller "on" with_daylight w0 (Ok tt)
            (fst (snd (apply_action "on" (with_daylight, w0))))
            (snd (snd (apply_action "on" (with_daylight, w0)))) _ _);
    reflexivity.
Defined.

Lemma cycle_rounds_witness :
  (exists w',
     repeat_action 4 "cycle" (harness, w0) =
       (Ok tt, (set_pattern_index ((0 + 4) mod 3) harness, w')) /\
     posts (trace w') =
       posts (trace w0) ++
       map (fun j => preset_payload [1; 2; 3] ((0 + Z.of_nat j) mod 3)) (seq 1 4)) /\
  (exists w', repeat_action 3 "cycle" (harness, w0) = (Ok tt, (harness, w'))).
Proof.
  refine (cycle_rounds 4 harness w0 _ _).
  - simpl; intros H; discriminate H.
  - simpl; lia.
Defined.

Lemma preset_posted_unclamped_witness :
  (exists w',
     apply_action "preset:-3" (harness, w0) = (Ok tt, (harness, w')) /\
     posts (trace w') = posts (trace w0) ++ [JDict [("ps", JInt (-3))]%string]) /\
  (exists w',
     apply_action "preset:two" (harness, w0) = (Ok tt, (harness, w')) /\
     posts (trace w') = posts (trace w0) /\
     logs (trace w') =
       logs (trace w0) ++
       [Log WARNING "Invalid preset action: %s" [AStr "preset:two"]]).
Proof.
  split.
  - refine (proj1 (preset_posted_unclamped "-3" harness w0) (-3) _). reflexivity.
  - refine (proj2 (preset_posted_unclamped "two" harness w0) _). reflexivity.
Defined.

Lemma full_white_stops_before_post_witness :
  exists d1 w1 ok w2,
    stop (running_cycle, w0) = (Ok tt, (d1, w1)) /\
    _running d1 = false /\
    posts (trace w1) = posts (trace w0) /\
    post_state wled full_white_payload w1 = (Ok ok, w2) /\
    apply_action "full_white" (with_daylight, w0) =
      (Ok tt, (set_daylight (Some d1) with_daylight, w2)) /\
    posts (trace w2) = posts (trace w0) ++ [full_white_payload].
Proof.
  exact (full_white_stops_before_post with_daylight running_cycle w0 eq_refl).
Defined.

Lemma unknown_action_only_warns_witness :
  apply_action "ON" (harness, w0) =
    (Ok tt, (harness, emit (Log WARNING "Unhandled WLED action: %s" [AStr "ON"]) w0)).
Proof.
  refine (proj1 (unknown_action_only_warns "ON" harness w0 _)). reflexivity.
Defined.

Lemma handle_packet_false_iff_unresolved_witness :
  (Ok false = Ok false <-> resolve harness harness_packet None = None) /\
  (Ok false = Ok false ->
   harness = harness /\
   posts (trace (snd (snd (handle_packet harness_packet None (harness, w0))))) =
     posts (trace w0) /\
   sockets (snd (snd (handle_packet harness_packet None (harness, w0)))) = sockets w0) /\
  (Frame.parse_tmcc_switch_or_accessory harness_packet None = None ->
   snd (snd (handle_packet harness_packet None (harness, w0))) = w0).
Proof.
  refine (handle_packet_false_iff_unresolved harness_packet None harness w0
            (Ok false) harness
            (snd (snd (handle_packet harness_packet None (harness, w0)))) _).
  reflexivity.
Defined.


Lemma handle_packet_ignores_command_field_witness :
  resolve harness on_packet None = resolve harness on_packet_switch None /\
  (resolve harness on_packet None <> None ->
   handle_packet on_packet None (harness, w0) =
   handle_packet on_packet_switch None (harness, w0)).
Proof.
  refine (handle_packet_ignores_command_field on_packet on_packet_switch None None
            (Frame.mkParsed 50 0 1 3) (Frame.mkParsed 50 1 1 2) harness w0 _ _ _ _);
    reflexivity.
Defined.

Lemma only_keys_in_range_fire_witness :
  exists address data_field,
    0 <= address <= 127 /\ 0 <= data_field <= 31 /\
    mapping_get harness_mapping (address, data_field) = Some "on"%string.
Proof.
  refine (only_keys_in_range_fire on_packet None harness "on" _). reflexivity.
Defined.

End MoreWitnesses.

Section SkyErrors.
Import Py Eff Client Daylight Sample.

Lemma bracket_in vh hours : forall lower upper l u,
  bracket vh hours lower upper = (l, u) ->
  (l = lower \/ In l hours) /\ (u = upper \/ In u hours).
Proof.
  induction hours as [|h rest IH]; intros lower upper l u H.
  - injection H as <- <-. auto.
  - simpl in H. destruct (int_ge_float h vh).
    + injection H as <- <-. split; [| right; left; reflexivity].
      destruct (int_le_float h vh); [right; left; reflexivity | left; reflexivity].
    + apply IH in H as [[-> | Hl] [-> | Hu]];
        (split; [destruct (int_le_float h vh); simpl; auto | simpl; auto]).
Qed.

Lemma float_of_int_raises z e : float_of_int z = Raise e -> e = OverflowError.
Proof.
  unfold float_of_int. destruct (is_infinity _); intros H; [| discriminate].
  injection H as <-. reflexivity.
Qed.

Lemma int_of_float_raises x e :
  int_of_float x = Raise e -> e = ValueError \/ e = OverflowError.
Proof.
  unfold int_of_float. destruct (Prim2SF x); intros H; try discriminate;
    injection H as <-; auto.
Qed.

Lemma lerp_raises a b t e :
  _lerp a b t = Raise e -> e = ValueError \/ e = OverflowError.
Proof.
  unfold _lerp, int_mul_float, int_add_float.
  destruct (float_of_int (b - a)) as [fd|e1] eqn:E1; cbn [and_then];
    [| intros H; injection H as <-; right; apply (float_of_int_raises _ _ E1)].
  destruct (float_of_int a) as [fa|e2] eqn:E2; cbn [and_then];
    [| intros H; injection H as <-; right; apply (float_of_int_raises _ _ E2)].
  apply int_of_float_raises.
Qed.

Lemma lerp_color_raises c1 c2 t e :
  _lerp_color c1 c2 t = Raise e -> e = ValueError \/ e = OverflowError.
Proof.
  destruct c1 as [[r1 g1] b1], c2 as [[r2 g2] b2]. unfold _lerp_color.
  destruct (_lerp r1 r2 t) as [r|e1] eqn:E1; cbn [and_then];
    [| intros H; injection H as <-; apply (lerp_raises _ _ _ _ E1)].
  destruct (_lerp g1 g2 t) as [g|e2] eqn:E2; cbn [and_then];
    [| intros H; injection H as <-; apply (lerp_raises _ _ _ _ E2)].
  destruct (_lerp b1 b2 t) as [b|e3] eqn:E3; cbn [and_then];
    [discriminate | intros H; injection H as <-; apply (lerp_raises _ _ _ _ E3)].
Qed.

Lemma sky_color_raises self vh e :
  keyframes self <> [] ->
  _get_sky_color self vh = Raise e ->
  e = ValueError \/ e = OverflowError \/ e = ZeroDivisionError.
Proof.
  intros Hne. unfold _get_sky_color.
  destruct (sorted (dict_keys (keyframes self))) as [|h0 rest] eqn:E.
  { exfalso. destruct (keyframes self) as [|[k v] d]; [congruence |].
    assert (In k (sorted (dict_keys ((k, v) :: d)))) as Hin
      by (apply sorted_In; left; reflexivity).
    rewrite E in Hin. destruct Hin. }
  rewrite getitem_first, getitem_last_is_last. cbn [and_then].
  destruct (bracket vh (h0 :: rest) h0 (last (h0 :: rest) h0)) as [l u] eqn:Eb.
  apply bracket_in in Eb as [Hl Hu].
  assert (forall k, k = h0 \/ In k (h0 :: rest) -> In k (dict_keys (keyframes self))) as Hkeys.
  { intros k Hk. apply sorted_In. rewrite E. destruct Hk as [-> | Hk]; [left; reflexivity | exact Hk]. }
  assert (In l (dict_keys (keyframes self))) as Hlk by (apply Hkeys, Hl).
  assert (In u (dict_keys (keyframes self))) as Huk.
  { apply sorted_In. rewrite E. destruct Hu as [-> | Hu]; [| exact Hu].
    apply (nth_error_In _ (List.length rest)), nth_error_last. }
  destruct (dict_find_In _ _ Hlk) as (c1 & Hc1).
  destruct (dict_find_In _ _ Huk) as (c2 & Hc2).
  unfold dict_getitem. rewrite Hc1, Hc2.
  destruct (l =? u); [discriminate |].
  unfold float_sub_int, float_div_int.
  destruct (float_of_int l) as [fl|e1] eqn:E1; cbn [and_then];
    [| intros H; injection H as <-; right; left; apply (float_of_int_raises _ _ E1)].
  destruct (float_of_int (u - l)) as [fd|e2] eqn:E2; cbn [and_then];
    [| intros H; injection H as <-; right; left; apply (float_of_int_raises _ _ E2)].
  destruct (PrimFloat.eqb fd 0); cbn [and_then];
    [intros H; injection H as <-; auto |].
  intros H. apply lerp_color_raises in H as [-> | ->]; auto.
Qed.

(** X23. On a cycle built by its constructor, whatever keyframe table was
    passed (none and the empty one give the default table),
    [_get_sky_color] never fails on a lookup: it raises no [IndexError] and
    no [KeyError] at any virtual hour; what it can raise comes from the
    float arithmetic of the interpolation alone.  A NaN hour does raise
    ([ValueError] with the default table). *)
Theorem sky_color_lookups_never_fail
  (client : WLEDClient)
  (cycle_duration_sec led_count moon_start moon_length lightning_every_n_cycles : Z)
  (keyframes : option (list (Z * color))) (update_interval : float)
  (virtual_hour : float) (e : exn) :
  _get_sky_color
    (DaylightCycle_init client cycle_duration_sec led_count moon_start moon_length
       lightning_every_n_cycles keyframes update_interval) virtual_hour = Raise e ->
  e = ValueError \/ e = OverflowError \/ e = ZeroDivisionError.
Proof.
  apply sky_color_raises.
  unfold DaylightCycle_init; cbn [Daylight.keyframes].
  destruct keyframes as [[|kv r]|]; discriminate.
Qed.

Lemma sky_color_lookups_never_fail_witness :
  ValueError = ValueError \/ ValueError = OverflowError \/ ValueError = ZeroDivisionError.
Proof.
  refine (sky_color_lookups_never_fail wled 1800 100 0 5 3 None 1%float nan ValueError _).
  vm_compute. reflexivity.
Defined.

End SkyErrors.

Section SkyInterpolation.
Import Py Daylight Sample.

(** [int] of a float is the truncation toward zero of its value. *)
Lemma int_of_float_truncates x :
  match SkySpec.truncate x with
  | Some z => int_of_float x = Ok z
  | None => exists e, int_of_float x = Raise e
  end.
Proof.
  unfold SkySpec.truncate, SkySpec.fraction, int_of_float.
  destruct (Prim2SF x) as [s|s| |s m e]; eauto.
  destruct (0 <=? e) eqn:Ee.
  - rewrite Z.quot_1_r, Z.shiftl_mul_pow2 by (apply Z.leb_le, Ee).
    destruct s; f_equal; lia.
  - apply Z.leb_gt in Ee.
    assert (0 < 2 ^ (- e)) as Hp by (apply Z.pow_pos_nonneg; lia).
    rewrite Z.shiftr_div_pow2 by lia.
    destruct s; f_equal.
    + change (Z.neg m) with (- Z.pos m).
      rewrite Z.quot_opp_l by lia.
      rewrite Z.quot_div_nonneg by lia. reflexivity.
    + rewrite Z.quot_div_nonneg by lia. reflexivity.
Qed.

Lemma small_floats_nonzero :
  forallb
    (fun n => (n =? 255)%nat || negb (PrimFloat.eqb (small_float n) 0%float))
    (seq 0 511) = true.
Proof. vm_compute. reflexivity. Qed.

(** Integers of at most eight bits convert to floats without overflow, and
    to a float that is not zero when they are not. *)
Lemma float_of_small_int z :
  -255 <= z <= 255 ->
  float_of_int z = Ok (SkySpec.to_float z) /\
  (z <> 0 -> PrimFloat.eqb (SkySpec.to_float z) 0%float = false).
Proof.
  intros Hz. destruct (small_float_spec z Hz) as (Hf & _).
  assert (SkySpec.to_float z = small_float (Z.to_nat (z + 255))) as Hto.
  { unfold float_of_int in Hf. fold (SkySpec.to_float z) in Hf.
    destruct (is_infinity (SkySpec.to_float z)); [discriminate |].
    injection Hf as Hf; exact Hf. }
  split.
  - rewrite Hf, Hto. reflexivity.
  - intros Hnz. rewrite Hto.
    pose proof small_floats_nonzero as T. rewrite forallb_forall in T.
    specialize (T (Z.to_nat (z + 255)) ltac:(apply in_seq; lia)).
    apply orb_true_iff in T as [T | T].
    + apply Nat.eqb_eq in T. lia.
    + apply negb_true_iff in T. exact T.
Qed.

Lemma lerp_is_channel a b t :
  -255 <= a <= 255 -> -255 <= b - a <= 255 ->
  match SkySpec.channel a b t with
  | Some z => _lerp a b t = Ok z
  | None => exists e, _lerp a b t = Raise e
  end.
Proof.
  intros Ha Hd.
  destruct (float_of_small_int a Ha) as (Fa & _).
  destruct (float_of_small_int (b - a) Hd) as (Fd & _).
  unfold _lerp, int_mul_float, int_add_float, SkySpec.channel.
  rewrite Fd, Fa. cbn [and_then].
  apply int_of_float_truncates.
Qed.

Lemma lerp_color_is_interpolate c1 c2 t :
  channel_color c1 -> channel_color c2 ->
  match SkySpec.interpolate c1 c2 t with
  | Some c => _lerp_color c1 c2 t = Ok c
  | None => exists e, _lerp_color c1 c2 t = Raise e
  end.
Proof.
  destruct c1 as [[r1 g1] b1], c2 as [[r2 g2] b2].
  intros (Hr1 & Hg1 & Hb1) (Hr2 & Hg2 & Hb2).
  pose proof (lerp_is_channel r1 r2 t ltac:(lia) ltac:(lia)) as R.
  pose proof (lerp_is_channel g1 g2 t ltac:(lia) ltac:(lia)) as G.
  pose proof (lerp_is_channel b1 b2 t ltac:(lia) ltac:(lia)) as B.
  unfold SkySpec.interpolate, _lerp_color.
  destruct (SkySpec.channel r1 r2 t) as [r|].
  - rewrite R. cbn [and_then].
    destruct (SkySpec.channel g1 g2 t) as [g|].
    + rewrite G. cbn [and_then].
      destruct (SkySpec.channel b1 b2 t) as [b|].
      * rewrite B. reflexivity.
      * destruct B as (e & ->). cbn [and_then]. eauto.
    + destruct G as (e & ->). cbn [and_then].
      destruct (SkySpec.channel b1 b2 t); eauto.
  - destruct R as (e & ->). cbn [and_then].
    destruct (SkySpec.channel g1 g2 t), (SkySpec.channel b1 b2 t); eauto.
Qed.

Lemma interpolation_t_is_parameter vh l u :
  0 <= l <= 255 -> 0 <= u <= 255 -> l <> u ->
  interpolation_t vh l u = Ok (SkySpec.parameter vh l u).
Proof.
  intros Hl Hu Hne.
  destruct (float_of_small_int l ltac:(lia)) as (Fl & _).
  destruct (float_of_small_int (u - l) ltac:(lia)) as (Fd & Hnz).
  unfold interpolation_t, float_sub_int, float_div_int, SkySpec.parameter.
  rewrite Fl. cbn [and_then]. rewrite Fd. cbn [and_then].
  rewrite (Hnz ltac:(lia)). reflexivity.
Qed.

(** C5. When the keyframe table has an hour at most the virtual hour and an
    hour at least it (as hours 0 and 24 are for every virtual hour in
    [0, 24]), the table has a greatest hour [l] at most the virtual hour and
    a least hour [u] at least it.  When [l = u] the sky color is the color
    stored there, exactly.  Otherwise, for hours in 0..255 and channels in
    0..255, it is the color the specification's interpolation gives: each
    channel [a + (b - a) * t] at [t = (virtual_hour - l) / (u - l)] in
    binary64, truncated toward zero; the call raises only where that
    truncation does not exist.  So a virtual hour equal to a keyframe hour
    gets the stored color of that keyframe, and with the default table hours
    24.0 and 0.0 get the same color. *)
Theorem sky_color_between_keyframes
  (self : DaylightCycle) (virtual_hour : float) (lo hi : Z) :
  In lo (dict_keys (keyframes self)) ->
  In hi (dict_keys (keyframes self)) ->
  int_le_float lo virtual_hour = true ->
  int_ge_float hi virtual_hour = true ->
  (exists l u c1 c2,
     greatest_at_most (dict_keys (keyframes self)) virtual_hour l /\
     least_at_least (dict_keys (keyframes self)) virtual_hour u /\
     dict_find (keyframes self) l = Some c1 /\
     dict_find (keyframes self) u = Some c2 /\
     (l = u -> _get_sky_color self virtual_hour = Ok c1) /\
     (l <> u ->
      0 <= l <= 255 -> 0 <= u <= 255 -> channel_color c1 -> channel_color c2 ->
      match SkySpec.interpolate c1 c2 (SkySpec.parameter virtual_hour l u) with
      | Some c => _get_sky_color self virtual_hour = Ok c
      | None => exists e, _get_sky_color self virtual_hour = Raise e
      end)) /\
  (forall h c,
     dict_find (keyframes self) h = Some c ->
     int_cmp_float h virtual_hour = Some Eq ->
     _get_sky_color self virtual_hour = Ok c) /\
  (forall d, keyframes d = DEFAULT_KEYFRAMES ->
     _get_sky_color d 24%float = Ok (40, 40, 100) /\
     _get_sky_color d 0%float = Ok (40, 40, 100)).
Proof.
  intros Hlo Hhi Hle Hge.
  split.
  { destruct (bracket_exists _ _ _ _ Hlo Hhi Hle Hge) as (l & u & Hl & Hu).
    destruct (sky_color_at_bracket self virtual_hour l u Hl Hu)
      as (c1 & c2 & H1 & H2 & Hsky).
    exists l, u, c1, c2.
    repeat (split; [assumption |]).
    split.
    - intros ->. rewrite Z.eqb_refl in Hsky. exact Hsky.
    - intros Hne Hlr Hur Hc1 Hc2.
      apply Z.eqb_neq in Hne. rewrite Hne in Hsky. apply Z.eqb_neq in Hne.
      rewrite Hsky, (interpolation_t_is_parameter _ _ _ Hlr Hur Hne).
      cbn [and_then].
      apply lerp_color_is_interpolate; assumption. }
  split; [intros h c; apply sky_color_at_keyframe |].
  intros d Hd; unfold _get_sky_color; rewrite Hd.
  split; vm_compute; reflexivity.
Qed.

End SkyInterpolation.

Section SkyWitness.
Import Py Daylight Sample.

Lemma sky_color_between_keyframes_witness :
  ((exists l u c1 c2,
      greatest_at_most (dict_keys (keyframes cycle0)) 14%float l /\
      least_at_least (dict_keys (keyframes cycle0)) 14%float u /\
      dict_find (keyframes cycle0) l = Some c1 /\
      dict_find (keyframes cycle0) u = Some c2 /\
      (l = u -> _get_sky_color cycle0 14%float = Ok c1) /\
      (l <> u ->
       0 <= l <= 255 -> 0 <= u <= 255 -> channel_color c1 -> channel_color c2 ->
       match SkySpec.interpolate c1 c2 (SkySpec.parameter 14%float l u) with
       | Some c => _get_sky_color cycle0 14%float = Ok c
       | None => exists e, _get_sky_color cycle0 14%float = Raise e
       end)) /\
   (forall h c,
      dict_find (keyframes cycle0) h = Some c ->
      int_cmp_float h 14%float = Some Eq ->
      _get_sky_color cycle0 14%float = Ok c) /\
   (forall d, keyframes d = DEFAULT_KEYFRAMES ->
      _get_sky_color d 24%float = Ok (40, 40, 100) /\
      _get_sky_color d 0%float = Ok (40, 40, 100))) /\
  SkySpec.interpolate (255, 255, 240) (255, 240, 220) (SkySpec.parameter 14%float 12 16) =
    Some (255, 247, 230) /\
  _get_sky_color cycle0 14%float = Ok (255, 247, 230).
Proof.
  split; [| split; vm_compute; reflexivity].
  refine (sky_color_between_keyframes cycle0 14%float 0 24 _ _ _ _).
  - simpl; auto.
  - simpl; auto 12.
  - vm_compute; reflexivity.
  - vm_compute; reflexivity.
Defined.

End SkyWitness.
